(** * kusto-example: a shallow embedding of [main.go]

    The program is a small command-line client of the Azure Data Explorer
    (Kusto) Go SDK with three modes: the default mode runs a query and prints
    every row as one JSON object per line, [probe] runs three health checks in
    order, [init-sample] creates the sample table the probe looks for.

    Go strings are byte sequences and are modelled by [string]; [[]byte] is
    [list byte]; Go's [int] and [time.Duration] are [Z].  The SDK, the
    operating system and the parts of Go's standard library that are not
    re-implemented here are taken as inputs: see [GoRuntime] and
    [World]. *)

From Stdlib Require Import ZArith Strings.Ascii Strings.Byte.
From stdpp Require Import base tactics option list strings gmap fin_maps sorting pretty.

Set Warnings "-register-all".
Local Open Scope Z_scope.

(** ** Package [strings] *)

Module strings.

(** [strings.HasPrefix]. *)
Fixpoint HasPrefix (s p : string) : bool :=
  match p, s with
  | EmptyString, _ => true
  | String a p', String b s' => if decide (a = b) then HasPrefix s' p' else false
  | String _ _, EmptyString => false
  end.

(** [strings.Contains]: [substr] occurs somewhere in [s]. *)
Fixpoint Contains (s substr : string) : bool :=
  if HasPrefix s substr then true
  else match s with
       | EmptyString => false
       | String _ s' => Contains s' substr
       end.

(** Bytes below [utf8.RuneSelf] (0x80). *)
Definition isASCIIbyte (c : ascii) : bool :=
  match c with Ascii _ _ _ _ _ _ _ b7 => negb b7 end.

Fixpoint isASCII (s : string) : bool :=
  match s with
  | EmptyString => true
  | String c s' => isASCIIbyte c && isASCII s'
  end.

(** The byte-wise lower-casing of the ASCII path of [strings.ToLower]:
    ['A'..'Z'] is moved by ['a' - 'A'], every other byte is kept. *)
Definition lowerByte (c : ascii) : ascii :=
  let n := nat_of_ascii c in
  if (65 <=? n)%nat && (n <=? 90)%nat then ascii_of_nat (n + 32) else c.

Fixpoint mapBytes (f : ascii → ascii) (s : string) : string :=
  match s with
  | EmptyString => EmptyString
  | String c s' => String (f c) (mapBytes f s')
  end.

(** The two ASCII trimming loops of [strings.TrimSpace]; the set of ASCII
    white space is Go's [asciiSpace] table: tab, newline, vertical tab, form
    feed, carriage return and space. *)
Fixpoint trimLeftASCII (s : string) : string :=
  match s with
  | EmptyString => EmptyString
  | String c s' => if Ascii.is_space c then trimLeftASCII s' else s
  end.

Fixpoint trimRightASCII (s : string) : string :=
  match s with
  | EmptyString => EmptyString
  | String c s' =>
      match trimRightASCII s' with
      | EmptyString => if Ascii.is_space c then EmptyString else String c EmptyString
      | t => String c t
      end
  end.

(** [strings.ReplaceAll s old new] for a non-empty [old]: the occurrences of
    [old] are replaced from left to right and do not overlap.  [skip] counts
    the bytes of the occurrence being replaced that are still to be dropped.
    (With an empty [old] Go inserts [new] at every rune boundary; the
    program never does that and this model does not cover it.) *)
Fixpoint replaceFrom (skip : nat) (s old new : string) : string :=
  match s with
  | EmptyString => EmptyString
  | String c s' =>
      match skip with
      | S k => replaceFrom k s' old new
      | O =>
          if HasPrefix s old
          then new +:+ replaceFrom (String.length old - 1) s' old new
          else String c (replaceFrom O s' old new)
      end
  end.

Definition ReplaceAll (s old new : string) : string := replaceFrom O s old new.

(** [strings.Join]. *)
Fixpoint Join (elems : list string) (sep : string) : string :=
  match elems with
  | [] => EmptyString
  | [x] => x
  | x :: rest => x +:+ sep +:+ Join rest sep
  end.

(** [strings.Split s sep] for a non-empty [sep]: the pieces of [s] between
    the occurrences of [sep], found from left to right without overlap; the
    result has one piece more than there are occurrences, so it is never
    empty.  [skip] counts the bytes of the occurrence just found that are
    still to be dropped.  (With an empty [sep] Go splits after every rune;
    the program never does that and it is not covered.) *)
Fixpoint splitFrom (skip : nat) (s sep : string) : list string :=
  match s with
  | EmptyString => [EmptyString]
  | String c s' =>
      match skip with
      | S k => splitFrom k s' sep
      | O =>
          if HasPrefix s sep
          then EmptyString :: splitFrom (String.length sep - 1) s' sep
          else match splitFrom O s' sep with
               | piece :: rest => String c piece :: rest
               | [] => [String c EmptyString]
               end
      end
  end.

Definition Split (s sep : string) : list string := splitFrom O s sep.

End strings.

(** The values [json.Unmarshal] stores into an [interface{}]: [nil], [bool],
    [float64] (kept as its 64-bit pattern), [string], [[]interface{}] and
    [map[string]interface{}]. *)
Inductive json : Type :=
  | JNull
  | JBool (b : bool)
  | JNumber (bits : Z)
  | JString (s : string)
  | JArray (elems : list json)
  | JObject (fields : list (string * json)).

(** ** Errors and the results of the SDK *)

(** A Go [error]: the text of [Error()], and whether [errors.As] finds a
    [net.Error] in its chain. *)
Record error : Type := { Error : string; asNetError : bool }.

#[global] Instance error_eq_dec : EqDecision error.
Proof. solve_decision. Defined.

(** [types.Column], the declared type of a column. *)
Module types.
Inductive Column : Type :=
  | Bool | DateTime | Decimal | Dynamic | GUID | Int | Long | Real | String | Timespan.
#[global] Instance Column_eq_dec : EqDecision Column.
Proof. solve_decision. Defined.
End types.

(** What [GetValue()] of a [value.Kusto] returns, by the dynamic type of the
    returned interface.  Pointers are [option]s, [None] being the nil
    pointer. *)
Inductive gvalue : Type :=
  | GBytes (b : list byte)                 (* []byte *)
  | GBytesPtr (pb : option (list byte))    (* *[]byte *)
  | GBoolPtr (p : option bool)             (* *bool *)
  | GIntPtr (p : option Z)                 (* *int32, *int64 *)
  | GFloatPtr (p : option Z)               (* *float64, as its bit pattern *)
  | GStringPtr (p : option string)         (* *string *)
  | GOther (text : string).                (* time, GUID, decimal, ... *)

(** A non-nil [value.Kusto]. *)
Record Kusto : Type := { GetValue : gvalue }.

Record Column : Type := { column_Name : string; column_Type : types.Column }.

(** A row: [Index()] and [Values()]; a nil interface among the values is
    [None]. *)
Record Row : Type := { row_Index : Z; row_Values : list (option Kusto) }.

(** An element of a stream: either its [Err()] is set or it carries the
    table or row. *)
Inductive result (A : Type) : Type :=
  | Failed (err : error)
  | Delivered (x : A).
Arguments Failed {A} err.
Arguments Delivered {A} x.

(** A table of an iterative dataset.  The row channel is finite and is
    modelled by the list of what it delivers, in order. *)
Record Table : Type := {
  table_Name : string;
  table_Kind : string;
  table_Columns : list Column;
  table_Rows : list (result Row);
}.

(** The client handle: what its three calls answer for a database and a
    statement.  [Mgmt] and [Query] only matter through their error. *)
Record Client : Type := {
  Mgmt : string → string → option error;
  Query : string → string → option error;
  IterativeQuery : string → string → error + list (result Table);
}.

(** The values the program stores in a record ([map[string]interface{}]). *)
Inductive any : Type :=
  | Nil
  | GoString (s : string)
  | GoInt (n : Z)
  | Decoded (j : json)      (* a non-nil value decoded by json.Unmarshal *)
  | Native (g : gvalue).    (* the result of GetValue(), stored as it is *)

(** The world one run of the program sees. *)
Record World : Type := {
  os_Args : list string;
  os_Getenv : string → string;
  (** [azkustodata.New] for the connection string of a cluster. *)
  azkustodata_New : string → error + Client;
  (** [time.Since(start)] of a probe step, in nanoseconds. *)
  time_Since : string → Z;
  (** The order in which this run's map iteration visits the entries. *)
  map_range : gmap string any → list (string * any);
}.

(** ** What the model takes from outside the repository

    The pieces of Go's standard library that the program calls and that are
    not re-implemented above.  [None] stands for a non-nil [error]. *)

Class GoRuntime : Type := {
  (** [strings.Map(unicode.ToLower, s)], used by [strings.ToLower] when [s]
      has a byte that is not ASCII. *)
  unicode_ToLower : string → string;
  (** [strings.TrimFunc(s, unicode.IsSpace)], used by [strings.TrimSpace]
      when it meets a byte that is not ASCII. *)
  unicode_TrimSpace : string → string;
  (** [time.ParseDuration], in nanoseconds. *)
  time_ParseDuration : string → option Z;
  (** [json.Unmarshal(b, &any)] into an empty interface. *)
  json_Unmarshal : list byte → option json;
  (** [json.Marshal] of one stored value; [inl] is the error of an
      unsupported value. *)
  json_encode : any → error + string;
  (** The encoding [json.Marshal] gives an object key. *)
  json_encode_key : string → string;
}.

Section go_strings.
Context `{GoRuntime}.

(** [strings.ToLower]. *)
Definition ToLower (s : string) : string :=
  if strings.isASCII s then strings.mapBytes strings.lowerByte s
  else unicode_ToLower s.

(** [strings.TrimSpace]. *)
Definition TrimSpace (s : string) : string :=
  if strings.isASCII s then strings.trimRightASCII (strings.trimLeftASCII s)
  else unicode_TrimSpace s.

End go_strings.

(** ** Processes: output, calls, resources and [os.Exit] *)

Inductive resource : Type := TheClient | TheDataset.

(** A remote call, with the time-out of the context it is given, in
    nanoseconds. *)
Inductive call : Type :=
  | CallMgmt (timeout : Z) (db stmt : string)
  | CallQuery (timeout : Z) (db stmt : string)
  | CallIterativeQuery (timeout : Z) (db stmt : string).

(** What a run does, in order.  A [Stdout] or [Stderr] event is one line,
    without its newline; the time stamp package [log] puts in front of a line
    is left out. *)
Inductive event : Type :=
  | Stdout (line : string)
  | Stderr (line : string)
  | Remote (c : call)
  | Open (r : resource)
  | Close (r : resource).

#[global] Instance resource_eq_dec : EqDecision resource.
Proof. solve_decision. Defined.
#[global] Instance call_eq_dec : EqDecision call.
Proof. solve_decision. Defined.
#[global] Instance event_eq_dec : EqDecision event.
Proof. solve_decision. Defined.

(** A function either returns or the process has exited inside it. *)
Inductive outcome (A : Type) : Type :=
  | Returned (a : A)
  | Exited (code : Z).
Arguments Returned {A} a.
Arguments Exited {A} code.

Definition M (A : Type) : Type := list event * outcome A.

#[global] Instance M_ret : MRet M := λ A a, ([], Returned a).

#[global] Instance M_bind : MBind M := λ A B f m,
  match m with
  | (t, Returned a) => let '(t', o) := f a in (t ++ t', o)
  | (t, Exited code) => (t, Exited code)
  end.

Definition emit (e : event) : M unit := ([e], Returned tt).

(** [os.Exit]: the process ends at once. *)
Definition os_Exit {A : Type} (code : Z) : M A := ([], Exited code).

(** [log.Fatalf]: the line goes to standard error, then [os.Exit(1)]. *)
Definition log_Fatalf {A : Type} (line : string) : M A :=
  emit (Stderr line);; os_Exit 1.

(** [defer f()] followed by [body]: [f] runs when [body] returns.  Go does
    not run deferred calls when the process leaves through [os.Exit]. *)
Definition defer {A : Type} (f : M unit) (body : M A) : M A :=
  match body with
  | (t, Returned a) =>
      match f with
      | (t', Returned _) => (t ++ t', Returned a)
      | (t', Exited code) => (t ++ t', Exited code)
      end
  | (t, Exited code) => (t, Exited code)
  end.

Definition trace {A : Type} (m : M A) : list event := m.1.
Definition result_of {A : Type} (m : M A) : outcome A := m.2.

(** The lines written to standard output. *)
Definition stdout (t : list event) : list string :=
  omap (λ e, match e with Stdout l => Some l | _ => None end) t.

(** The remote calls made. *)
Definition calls (t : list event) : list call :=
  omap (λ e, match e with Remote c => Some c | _ => None end) t.

(** ** The program *)

Module time.
Definition Second : Z := 1000000000.
Definition Minute : Z := 60 * Second.
(** [Duration.Milliseconds]: integer division, rounding toward zero. *)
Definition Milliseconds (d : Z) : Z := Z.quot d 1000000.
End time.

(** The verb [%v] applied to an [error]. *)
Definition fmt_v (err : option error) : string :=
  match err with
  | Some e => Error e
  | None => "<nil>"
  end.

(** [string(b)] for a byte slice. *)
Definition string_of_bytes (b : list byte) : string := String.string_of_list_byte b.

(** A decoded JSON document as the [interface{}] it is stored in: the
    document [null] leaves the interface nil. *)
Definition any_of_json (j : json) : any :=
  match j with
  | JNull => Nil
  | _ => Decoded j
  end.

Definition when (b : bool) (m : M unit) : M unit := if b then m else mret tt.

Section program.
Context `{GoRuntime} (w : World).

(** *** Error classification *)

Definition isNetworkErr (err : error) : bool :=
  if asNetError err then true
  else
    let msg := ToLower (Error err) in
    strings.Contains msg "no such host" || strings.Contains msg "connection refused"
    || strings.Contains msg "timeout".

Definition looksLikeAAD (err : error) : bool :=
  let msg := ToLower (Error err) in
  strings.Contains msg "aadsts" || strings.Contains msg "token"
  || strings.Contains msg "credential".

Definition isAuthErr (err : error) : bool :=
  let msg := ToLower (Error err) in
  strings.Contains msg "unauthorized" || strings.Contains msg "401"
  || strings.Contains msg "authorization".

Definition isPermissionErr (err : error) : bool :=
  let msg := ToLower (Error err) in
  strings.Contains msg "forbidden" || strings.Contains msg "403"
  || strings.Contains msg "insufficient" || strings.Contains msg "permission".

Definition isDatabaseNotFound (err : error) : bool :=
  let msg := ToLower (Error err) in
  strings.Contains msg "database" && strings.Contains msg "not found".

Definition isTableNotFound (err : error) : bool :=
  let msg := ToLower (Error err) in
  strings.Contains msg "semantic"
  && (strings.Contains msg "table" || strings.Contains msg "name")
  && strings.Contains msg "not".

(** *** Remediation texts *)

Definition suggestionForAuth (err : error) : string :=
  "Ensure Azure auth is available: run 'az login' or configure DefaultAzureCredential (AZURE_TENANT_ID, AZURE_CLIENT_ID/SECRET).".

Definition suggestionForEndpointOrAuth (err : error) : string :=
  if isNetworkErr err then
    "Verify KUSTO_CLUSTER endpoint is correct (https://<cluster>.<region>.kusto.windows.net) and reachable."
  else if looksLikeAAD err || isAuthErr err then suggestionForAuth err
  else "Check endpoint and authentication.".

Definition suggestionForDatabase (err : error) (db : string) : string :=
  if isDatabaseNotFound err then
    "Database '" +:+ db +:+ "' not found. Verify KUSTO_DATABASE or create it (see kusto.sh)."
  else if isPermissionErr err then
    "You may lack database permissions. Ensure your identity has access (e.g., Admin/User role)."
  else "Verify KUSTO_DATABASE and your permissions.".

Definition suggestionForPermissions : string :=
  "Grant your identity read access to the database/table (e.g., Admin/User role).".

Definition suggestionForQuery (table : string) : string :=
  "Investigate query or connectivity issues for table '" +:+ table +:+ "'.".

(** *** Status lines *)

Definition okTimed (step : string) (d : Z) (msg : string) : M unit :=
  emit (Stdout ("OK " +:+ step +:+ " (" +:+ pretty (time.Milliseconds d) +:+ "ms): " +:+ msg)).

Definition failTimed (step : string) (d : Z) (msg : string) (err : option error)
    (suggest : string) : M unit :=
  emit (Stdout ("FAIL " +:+ step +:+ " (" +:+ pretty (time.Milliseconds d) +:+ "ms): "
                +:+ msg +:+ ": " +:+ fmt_v err));;
  when (bool_decide (suggest ≠ "")) (emit (Stdout ("SUGGEST " +:+ step +:+ ": " +:+ suggest)));;
  os_Exit 1.

Definition fail (step msg : string) (err : option error) (suggest : string) : M unit :=
  match err with
  | Some e => emit (Stdout ("FAIL " +:+ step +:+ ": " +:+ msg +:+ ": " +:+ Error e))
  | None => emit (Stdout ("FAIL " +:+ step +:+ ": " +:+ msg))
  end;;
  when (bool_decide (suggest ≠ "")) (emit (Stdout ("SUGGEST " +:+ step +:+ ": " +:+ suggest)));;
  os_Exit 1.

Definition infoTimed (step : string) (d : Z) (msg : string) : M unit :=
  emit (Stdout ("INFO " +:+ step +:+ " (" +:+ pretty (time.Milliseconds d) +:+ "ms): " +:+ msg)).

(** *** Configuration *)

(** The loop of [splitCSV] over the parts: each part is trimmed and kept
    when something is left of it. *)
Fixpoint splitCSV_parts (parts : list string) : list string :=
  match parts with
  | [] => []
  | p :: rest =>
      let p := TrimSpace p in
      if decide (p ≠ "") then p :: splitCSV_parts rest else splitCSV_parts rest
  end.

Definition splitCSV (s : string) : list string := splitCSV_parts (strings.Split s ",").

Definition getenv (key def : string) : string :=
  let v := os_Getenv w key in
  if decide (v = "") then def else v.

Definition getenvOrExit (key hint : string) : M string :=
  let v := os_Getenv w key in
  if decide (v = "") then
    log_Fatalf ("environment variable " +:+ key +:+ " is required (e.g., " +:+ hint +:+ ")")
  else mret v.

Definition getDurationEnv (key : string) (def : Z) : Z :=
  let v := TrimSpace (os_Getenv w key) in
  if decide (v = "") then def
  else match time_ParseDuration v with
       | Some d => d
       | None => def
       end.

Definition resolveClusterURL (clusterName : string) : M string :=
  if decide (TrimSpace clusterName ≠ "") then
    mret ("https://" +:+ TrimSpace clusterName +:+ ".eastus.kusto.windows.net")
  else
    let v := TrimSpace (os_Getenv w "KUSTO_CLUSTER") in
    if decide (v ≠ "") then mret v
    else log_Fatalf "cluster not provided. Usage: 'probe <cluster-name>' or set KUSTO_CLUSTER to full URI".

(** *** The row-to-record projection of the default mode *)

(** The value stored for column [c] whose value in the row is [v]: the body
    of the loop over the columns. *)
Definition column_value (c : Column) (v : option Kusto) : any :=
  match v with
  | None => Nil
  | Some v =>
      if decide (column_Type c = types.Dynamic) then
        match GetValue v with
        | GBytes b =>
            match json_Unmarshal b with
            | Some j => any_of_json j
            | None => GoString (string_of_bytes b)
            end
        | GBytesPtr None => Nil
        | GBytesPtr (Some b) =>
            match json_Unmarshal b with
            | Some j => any_of_json j
            | None => GoString (string_of_bytes b)
            end
        | g => Native g
        end
      else Native (GetValue v)
  end.

(** [for i, c := range cols], from index [i] on; a column without a value
    in the row is skipped. *)
Fixpoint project_columns (i : nat) (cols : list Column) (vals : list (option Kusto))
    (obj : gmap string any) : gmap string any :=
  match cols with
  | [] => obj
  | c :: cols' =>
      match vals !! i with
      | None => project_columns (S i) cols' vals obj
      | Some v => project_columns (S i) cols' vals (<[column_Name c := column_value c v]> obj)
      end
  end.

Definition project_row (table : Table) (row : Row) : gmap string any :=
  let obj : gmap string any := ∅ in
  let obj := <["_table" := GoString (table_Name table)]> obj in
  let obj := <["_kind" := GoString (table_Kind table)]> obj in
  let obj := <["_rowIndex" := GoInt (row_Index row)]> obj in
  project_columns 0 (table_Columns table) (row_Values row) obj.

(** *** [json.Marshal] of a record

    Package [encoding/json] writes a map as an object whose keys are sorted
    (as strings, byte by byte); it gets the entries from a map iteration,
    whose order differs from run to run. *)

Definition key_le (x y : string * any) : Prop := String.le x.1 y.1.

#[global] Instance key_le_dec : RelDecision key_le.
Proof. intros x y. unfold key_le. apply _. Defined.

Fixpoint encode_fields (entries : list (string * any)) : error + list string :=
  match entries with
  | [] => inr []
  | (k, v) :: rest =>
      match json_encode v with
      | inl err => inl err
      | inr enc =>
          match encode_fields rest with
          | inl err => inl err
          | inr fields => inr ((json_encode_key k +:+ ":" +:+ enc) :: fields)
          end
      end
  end.

Definition marshal_entries (entries : list (string * any)) : error + string :=
  match encode_fields (merge_sort key_le entries) with
  | inl err => inl err
  | inr fields => inr ("{" +:+ strings.Join fields "," +:+ "}")
  end.

Definition json_Marshal (obj : gmap string any) : error + string :=
  marshal_entries (map_range w obj).

(** *** The default mode: run a query, print one JSON object per row *)

Fixpoint rowsLoop (table : Table) (rows : list (result Row)) : M unit :=
  match rows with
  | [] => mret tt
  | Failed err :: _ => log_Fatalf ("row error: " +:+ Error err)
  | Delivered row :: rest =>
      match json_Marshal (project_row table row) with
      | inl err => log_Fatalf ("failed to marshal row as JSON: " +:+ Error err)
      | inr enc => emit (Stdout enc);; rowsLoop table rest
      end
  end.

Fixpoint tablesLoop (tables : list (result Table)) : M unit :=
  match tables with
  | [] => mret tt
  | Failed err :: _ => log_Fatalf ("table error: " +:+ Error err)
  | Delivered table :: rest => rowsLoop table (table_Rows table);; tablesLoop rest
  end.

Definition defaultQuery : string :=
  "cluster('help').database('Samples').StormEvents | take 5".

Definition queryMode : M unit :=
  cluster ← getenvOrExit "KUSTO_CLUSTER" "https://<cluster>.<region>.kusto.windows.net";
  database ← getenvOrExit "KUSTO_DATABASE" "<database>";
  let queryText := getenv "KUSTO_QUERY" defaultQuery in
  match azkustodata_New w cluster with
  | inl err => log_Fatalf ("failed creating Kusto client: " +:+ Error err)
  | inr client =>
      emit (Open TheClient);;
      defer (emit (Close TheClient))
        (let q := if decide (os_Getenv w "KUSTO_QUERY" = "") then defaultQuery else queryText in
         emit (Remote (CallIterativeQuery (2 * time.Minute) database q));;
         match IterativeQuery client database q with
         | inl err => log_Fatalf ("query submission failed: " +:+ Error err)
         | inr tables =>
             emit (Open TheDataset);;
             defer (emit (Close TheDataset)) (tablesLoop tables)
         end)
  end.

(** *** The probe *)

(** The two loops of [queryHasAnyRow] over a delivered stream. *)
Fixpoint scanTables (tables : list (result Table)) : bool * option error :=
  match tables with
  | [] => (false, None)
  | Failed err :: _ => (false, Some err)
  | Delivered t :: rest =>
      if decide (table_Name t ≠ "PrimaryResult") then scanTables rest
      else
        match table_Rows t with
        | [] => scanTables rest
        | Failed err :: _ => (false, Some err)
        | Delivered _ :: _ => (true, None)
        end
  end.

Definition queryHasAnyRow (ctx : Z) (client : Client) (db q : string) :
    M (bool * option error) :=
  emit (Remote (CallIterativeQuery ctx db q));;
  match IterativeQuery client db q with
  | inl err => mret (false, Some err)
  | inr tables =>
      emit (Open TheDataset);;
      defer (emit (Close TheDataset)) (mret (scanTables tables))
  end.

(** The filter query of step 3. *)
Definition sampleQuery (sampleTable expectMsg : string) : string :=
  sampleTable +:+ " | where Message == '" +:+ strings.ReplaceAll expectMsg "'" "''"
  +:+ "' | take 1".

(** Step 1: management probe (cluster level). *)
Definition mgmtStep (stepTimeout : Z) (client : Client) : M unit :=
  emit (Remote (CallMgmt stepTimeout "" ".show version"));;
  match Mgmt client "" ".show version" with
  | Some mgmtErr =>
      failTimed "mgmt" (time_Since w "mgmt") ".show version failed" (Some mgmtErr)
        (suggestionForEndpointOrAuth mgmtErr)
  | None => mret tt
  end;;
  okTimed "mgmt" (time_Since w "mgmt") "cluster reachable".

(** Step 2: database probe (query level). *)
Definition databaseStep (stepTimeout : Z) (client : Client) (database : string) : M unit :=
  emit (Remote (CallQuery stepTimeout database "print 1"));;
  match Query client database "print 1" with
  | Some qErr =>
      failTimed "database" (time_Since w "database") "basic query failed" (Some qErr)
        (suggestionForDatabase qErr database)
  | None => mret tt
  end;;
  okTimed "database" (time_Since w "database") ("db ok: " +:+ database).

(** Step 3: sample data probe (the expected content exists). *)
Definition dataSampleStep (stepTimeout : Z) (client : Client)
    (database sampleTable expectMsg : string) : M unit :=
  let q := sampleQuery sampleTable expectMsg in
  '(has, derr) ← queryHasAnyRow stepTimeout client database q;
  match derr with
  | Some derr =>
      when (isTableNotFound derr)
        (failTimed "data-sample" (time_Since w "data-sample")
           ("sample table not found: " +:+ sampleTable) (Some derr)
           "Run kusto.sh probe or create to initialize the sample table.");;
      when (isPermissionErr derr)
        (failTimed "data-sample" (time_Since w "data-sample")
           ("no access to sample table: " +:+ sampleTable) (Some derr)
           suggestionForPermissions);;
      failTimed "data-sample" (time_Since w "data-sample")
        "query failed for sample table" (Some derr) (suggestionForQuery sampleTable)
  | None => mret tt
  end;;
  when (negb has)
    (failTimed "data-sample" (time_Since w "data-sample")
       ("expected row not found in " +:+ sampleTable +:+ " (Message=='" +:+ expectMsg +:+ "')")
       None "Initialize sample data via kusto.sh or verify ingestion.");;
  okTimed "data-sample" (time_Since w "data-sample")
    ("sample table ok: " +:+ sampleTable +:+ " contains expected data");;
  emit (Stdout "OK probe: endpoint, db, and data access validated").

Definition runProbe (clusterArg : string) : M unit :=
  cluster ← resolveClusterURL clusterArg;
  let database := getenv "KUSTO_DATABASE" "sampledb" in
  let sampleTable := getenv "KUSTO_SAMPLE_TABLE" "ProbeTest" in
  let expectMsg := getenv "KUSTO_PROBE_EXPECT_MESSAGE" "kusto-sample-ok" in
  let stepTimeout := getDurationEnv "KUSTO_PROBE_TIMEOUT" (3 * time.Second) in
  match azkustodata_New w cluster with
  | inl err =>
      fail "auth/client" "failed to create Kusto client" (Some err) (suggestionForAuth err)
  | inr client =>
      emit (Open TheClient);;
      defer (emit (Close TheClient))
        (mgmtStep stepTimeout client;;
         databaseStep stepTimeout client database;;
         dataSampleStep stepTimeout client database sampleTable expectMsg)
  end.

(** *** The initializer of the sample table *)

Definition createCommand (sampleTable : string) : string :=
  ".create-merge table " +:+ sampleTable +:+ " (Message:string, When:datetime)".

Definition appendCommand (sampleTable expectMsg : string) : string :=
  ".set-or-append " +:+ sampleTable +:+ " <| print Message='"
  +:+ strings.ReplaceAll expectMsg "'" "''" +:+ "', When=now()".

Definition runInitSample (clusterArg : string) : M unit :=
  cluster ← resolveClusterURL clusterArg;
  let database := getenv "KUSTO_DATABASE" "sampledb" in
  let sampleTable := getenv "KUSTO_SAMPLE_TABLE" "ProbeTest" in
  let expectMsg := getenv "KUSTO_PROBE_EXPECT_MESSAGE" "kusto-sample-ok" in
  match azkustodata_New w cluster with
  | inl err => log_Fatalf ("failed creating Kusto client: " +:+ Error err)
  | inr client =>
      emit (Open TheClient);;
      defer (emit (Close TheClient))
        (let qCreate := createCommand sampleTable in
         emit (Remote (CallMgmt (30 * time.Second) database qCreate));;
         match Mgmt client database qCreate with
         | Some err => log_Fatalf ("failed to create/merge sample table: " +:+ Error err)
         | None => mret tt
         end;;
         let qAppend := appendCommand sampleTable expectMsg in
         emit (Remote (CallMgmt (30 * time.Second) database qAppend));;
         match Mgmt client database qAppend with
         | Some err => log_Fatalf ("failed to append sample row: " +:+ Error err)
         | None => mret tt
         end;;
         emit (Stdout ("Initialized sample table " +:+ sampleTable +:+ " with message '"
                       +:+ expectMsg +:+ "'")))
  end.

(** *** Entry point *)

Definition main : M unit :=
  match os_Args w with
  | _ :: mode :: rest =>
      if decide (mode = "probe") then runProbe (default "" (head rest))
      else if decide (mode = "init-sample") then runInitSample (default "" (head rest))
      else queryMode
  | _ => queryMode
  end.

End program.

(** ** A runtime and worlds for running the model

    The sample runtime is enough for ASCII text: the Unicode paths of
    [GoRuntime] are never entered there.  Its duration parser and JSON codec
    know a handful of inputs only. *)

Module sample.

Definition dquote : string := String (ascii_of_nat 34) EmptyString.

Definition bytes (s : string) : list byte := String.list_byte_of_string s.

Definition ParseDuration (s : string) : option Z :=
  if decide (s = "5s") then Some (5 * time.Second)
  else if decide (s = "250ms") then Some 250000000
  else if decide (s = "0") then Some 0
  else None.

Definition Unmarshal (b : list byte) : option json :=
  let text := string_of_bytes b in
  if decide (text = "null") then Some JNull
  else if decide (text = "true") then Some (JBool true)
  else if decide (text = "false") then Some (JBool false)
  else if decide (text = "[]") then Some (JArray [])
  else if decide (text = "{}") then Some (JObject [])
  else None.

Definition encode (x : any) : error + string :=
  match x with
  | Nil | Native (GBytesPtr None) | Native (GBoolPtr None) | Native (GIntPtr None)
  | Native (GFloatPtr None) | Native (GStringPtr None) | Decoded JNull => inr "null"
  | GoString s | Native (GStringPtr (Some s)) | Decoded (JString s) | Native (GOther s) =>
      inr (dquote +:+ s +:+ dquote)
  | GoInt n | Native (GIntPtr (Some n)) => inr (pretty n)
  | Decoded (JBool b) | Native (GBoolPtr (Some b)) => inr (if b then "true" else "false")
  | Decoded (JArray []) => inr "[]"
  | Decoded (JObject []) => inr "{}"
  | _ => inl {| Error := "json: unsupported value"; asNetError := false |}
  end.

Definition runtime : GoRuntime := {|
  unicode_ToLower := id;
  unicode_TrimSpace := id;
  time_ParseDuration := ParseDuration;
  json_Unmarshal := Unmarshal;
  json_encode := encode;
  json_encode_key := λ k, dquote +:+ k +:+ dquote;
|}.

Definition err (msg : string) : error := {| Error := msg; asNetError := false |}.

(** An environment given as a list of bindings; an unset variable reads as
    the empty string, as [os.Getenv] has it. *)
Definition env_of (bindings : list (string * string)) (key : string) : string :=
  default "" ((list_to_map bindings : gmap string string) !! key).

(** A client that answers [.show version] and [print 1] with [mgmt] and
    [query], and every iterative query with [data]. *)
Definition client (mgmt query : option error) (data : error + list (result Table)) : Client := {|
  Mgmt := λ _ _, mgmt;
  Query := λ _ _, query;
  IterativeQuery := λ _ _, data;
|}.

Definition world (args : list string) (bindings : list (string * string))
    (c : error + Client) : World := {|
  os_Args := args;
  os_Getenv := env_of bindings;
  azkustodata_New := λ _, c;
  time_Since := λ _, 120000000;
  map_range := map_to_list;
|}.

End sample.

(** * The vocabulary of the properties *)

(** [sub] occurs in [s]. *)
Definition occurs_in (sub s : string) : Prop :=
  ∃ pre post, s = pre +:+ sub +:+ post.

Definition call_timeout (c : call) : Z :=
  match c with
  | CallMgmt t _ _ | CallQuery t _ _ | CallIterativeQuery t _ _ => t
  end.

(** The line [failTimed] prints first. *)
Definition failLine (step : string) (d : Z) (msg : string) (err : option error) : string :=
  "FAIL " +:+ step +:+ " (" +:+ pretty (time.Milliseconds d) +:+ "ms): "
  +:+ msg +:+ ": " +:+ fmt_v err.

(** A stream element the loops of [queryHasAnyRow] pass over: a table
    delivered without error that is not a "PrimaryResult" table with
    something in its row channel. *)
Definition passed_over (tr : result Table) : Prop :=
  ∃ t, tr = Delivered t ∧ (table_Name t = "PrimaryResult" → table_Rows t = []).

(** The first thing met in the stream, beyond what is passed over, is a row
    of a "PrimaryResult" table. *)
Definition reaches_row (tables : list (result Table)) : Prop :=
  ∃ pre t row rows post,
    tables = pre ++ Delivered t :: post ∧ Forall passed_over pre
    ∧ table_Name t = "PrimaryResult" ∧ table_Rows t = Delivered row :: rows.

(** The first thing met is the error [e]: of a table, or of the first row
    of a "PrimaryResult" table. *)
Definition reaches_error (e : error) (tables : list (result Table)) : Prop :=
  ∃ pre post,
    Forall passed_over pre
    ∧ (tables = pre ++ Failed e :: post
       ∨ ∃ t rows, tables = pre ++ Delivered t :: post
                   ∧ table_Name t = "PrimaryResult" ∧ table_Rows t = Failed e :: rows).

(** The stream with the rows of every table not named "PrimaryResult" taken
    out. *)
Definition without_other_rows (tables : list (result Table)) : list (result Table) :=
  (λ tr, match tr with
         | Delivered t =>
             if decide (table_Name t = "PrimaryResult") then tr
             else Delivered {| table_Name := table_Name t; table_Kind := table_Kind t;
                               table_Columns := table_Columns t; table_Rows := [] |}
         | Failed e => tr
         end) <$> tables.

(** Every single quote written twice. *)
Fixpoint double_quotes (s : string) : string :=
  match s with
  | EmptyString => EmptyString
  | String c s' =>
      if decide (c = "'"%char) then String "'" (String "'" (double_quotes s'))
      else String c (double_quotes s')
  end.

(** Reading a quoted literal from just after its opening quote, where two
    quotes in a row stand for one quote and any other quote closes the
    literal: the text of the literal and what follows the closing quote.
    [None] is a literal that is never closed. *)
Fixpoint read_quoted (s : string) : option (string * string) :=
  match s with
  | EmptyString => None
  | String c s' =>
      if decide (c = "'"%char) then
        match s' with
        | String c' s'' =>
            if decide (c' = "'"%char)
            then (λ r, (String "'" r.1, r.2)) <$> read_quoted s''
            else Some (EmptyString, s')
        | EmptyString => Some (EmptyString, EmptyString)
        end
      else (λ r, (String c r.1, r.2)) <$> read_quoted s'
  end.

(** The bytes of a dynamic value: a byte slice, or a pointer to one that is
    not nil. *)
Definition payload (v : option Kusto) : option (list byte) :=
  match v with
  | Some k =>
      match GetValue k with
      | GBytes b | GBytesPtr (Some b) => Some b
      | _ => None
      end
  | None => None
  end.

(** A nil value, or a nil pointer to bytes. *)
Definition absent (v : option Kusto) : Prop :=
  v = None ∨ ∃ k, v = Some k ∧ GetValue k = GBytesPtr None.

(** The table cut down to its first [n] columns. *)
Definition first_columns (n : nat) (table : Table) : Table :=
  {| table_Name := table_Name table; table_Kind := table_Kind table;
     table_Columns := take n (table_Columns table); table_Rows := table_Rows table |}.

(** The tables of a stream come from the service with their rows numbered
    from zero in the order of arrival. *)
Definition sdk_numbered (table : Table) : Prop :=
  ∀ k row, table_Rows table !! k = Some (Delivered row) → row_Index row = Z.of_nat k.

(** No column of the table is named [key]. *)
Definition no_column_named (key : string) (table : Table) : Prop :=
  ∀ c, c ∈ table_Columns table → column_Name c ≠ key.

(** The iteration order of a run is some order of the entries of the map. *)
Definition iterates_maps (w : World) : Prop :=
  ∀ m : gmap string any, map_range w m ≡ₚ map_to_list m.

(** The keys of the entries go up strictly, byte by byte. *)
Definition keys_ascending (entries : list (string * any)) : Prop :=
  StronglySorted (λ x y, String.le x.1 y.1 ∧ x.1 ≠ y.1) entries.

(** The resource [r] is not closed anywhere in [t]. *)
Definition unreleased (r : resource) (t : list event) : Prop := Close r ∉ t.

(** [s] is made of ASCII white space only. *)
Fixpoint blank (s : string) : bool :=
  match s with
  | EmptyString => true
  | String c s' => Ascii.is_space c && blank s'
  end.

(** [s] does not begin with ASCII white space. *)
Definition starts_clean (s : string) : bool :=
  match s with
  | EmptyString => true
  | String c _ => negb (Ascii.is_space c)
  end.

(** [s] does not end with ASCII white space. *)
Fixpoint ends_clean (s : string) : bool :=
  match s with
  | EmptyString => true
  | String c EmptyString => negb (Ascii.is_space c)
  | String _ s' => ends_clean s'
  end.

(** An item of a comma-separated list that [splitCSV] gives back as it is:
    ASCII text that is not empty, holds no comma and has no white space at
    either end. *)
Definition csv_item (x : string) : Prop :=
  x ≠ "" ∧ strings.isASCII x = true ∧ strings.Contains x "," = false
  ∧ starts_clean x = true ∧ ends_clean x = true.








Section vocabulary.
Context `{GoRuntime} (w : World).

(** The record of a row as it stands when the loop over the columns has
    done the first [n] of them. *)
Definition record_after (n : nat) (table : Table) (row : Row) : gmap string any :=
  project_row (first_columns n table) row.

(** The configuration of a probe run and its three calls. *)
Definition probe_database : string := getenv w "KUSTO_DATABASE" "sampledb".

Definition probe_table : string := getenv w "KUSTO_SAMPLE_TABLE" "ProbeTest".

Definition probe_marker : string := getenv w "KUSTO_PROBE_EXPECT_MESSAGE" "kusto-sample-ok".

Definition probe_timeout : Z := getDurationEnv w "KUSTO_PROBE_TIMEOUT" (3 * time.Second).

Definition step1 : call := CallMgmt probe_timeout "" ".show version".

Definition step2 : call := CallQuery probe_timeout probe_database "print 1".

Definition step3 : call :=
  CallIterativeQuery probe_timeout probe_database (sampleQuery probe_table probe_marker).

(** The probe got as far as a client. *)
Definition probe_client (arg : string) (client : Client) : Prop :=
  ∃ cluster, result_of (resolveClusterURL w arg) = Returned cluster
             ∧ azkustodata_New w cluster = inr client.

(** The three steps in sequence. *)
Definition probeSteps (client : Client) : M unit :=
  mgmtStep w probe_timeout client;;
  databaseStep w probe_timeout client probe_database;;
  dataSampleStep w probe_timeout client probe_database probe_table probe_marker.

(** The message of the probe when the query ran and no row came back. *)
Definition rowNotFound : string :=
  "expected row not found in " +:+ probe_table +:+ " (Message=='" +:+ probe_marker +:+ "')".

(** The messages of step 3 when the query failed. *)
Definition queryFailures : list string :=
  ["sample table not found: " +:+ probe_table;
   "no access to sample table: " +:+ probe_table;
   "query failed for sample table"].

Definition init_create : call :=
  CallMgmt (30 * time.Second) probe_database (createCommand probe_table).

Definition init_append : call :=
  CallMgmt (30 * time.Second) probe_database
    (appendCommand probe_table probe_marker).


(** The stream the default mode reads, when it gets as far as one. *)
Definition query_stream : option (list (result Table)) :=
  let cluster := os_Getenv w "KUSTO_CLUSTER" in
  let database := os_Getenv w "KUSTO_DATABASE" in
  if decide (cluster = "") then None
  else if decide (database = "") then None
  else match azkustodata_New w cluster with
       | inl _ => None
       | inr client =>
           match IterativeQuery client database (getenv w "KUSTO_QUERY" defaultQuery) with
           | inl _ => None
           | inr tables => Some tables
           end
       end.

(** The lines of a run, table by table: the tables the loop over the stream
    enters, each with the lines its rows give. *)
Fixpoint table_groups (tables : list (result Table)) : list (Table * list string) :=
  match tables with
  | Delivered t :: rest =>
      let run := rowsLoop w t (table_Rows t) in
      (t, stdout (trace run))
        :: match result_of run with
           | Returned _ => table_groups rest
           | Exited _ => []
           end
  | _ => []
  end.

Definition output_groups : list (Table * list string) :=
  match query_stream with
  | Some tables => table_groups tables
  | None => []
  end.

(** The assignments the projection of a row makes to the record, in order:
    the three synthetic keys, then one per column that has a value. *)
Definition assignments (table : Table) (row : Row) : list (string * any) :=
  [ ("_table", GoString (table_Name table));
    ("_kind", GoString (table_Kind table));
    ("_rowIndex", GoInt (row_Index row)) ]
  ++ zip_with (λ c v, (column_Name c, column_value c v)) (table_Columns table) (row_Values row).



(** A member of an encoded object: the key, a colon, the encoded value. *)
Definition member (kv : string * any) (enc : string) : string :=
  json_encode_key kv.1 +:+ ":" +:+ enc.

(** The line [okTimed] prints for a step. *)
Definition okLine (step msg : string) : string :=
  "OK " +:+ step +:+ " (" +:+ pretty (time.Milliseconds (time_Since w step)) +:+ "ms): " +:+ msg.



End vocabulary.

(** ** Sample tables and worlds *)

(** Worlds for the probe of cluster [c1] with the default configuration. *)
Definition boom : error := sample.err "boom".

Definition probe_world (mgmt query : option error) (data : error + list (result Table)) : World :=
  sample.world ["kusto"; "probe"; "c1"] [] (inr (sample.client mgmt query data)).

Definition primary (rows : list (result Row)) : Table :=
  {| table_Name := "PrimaryResult"; table_Kind := "PrimaryResult";
     table_Columns := [ {| column_Name := "Message"; column_Type := types.String |} ];
     table_Rows := rows |}.

Definition properties (rows : list (result Row)) : Table :=
  {| table_Name := "@ExtendedProperties"; table_Kind := "QueryProperties";
     table_Columns := [ {| column_Name := "Value"; column_Type := types.Dynamic |} ];
     table_Rows := rows |}.

Definition message_row (i : Z) (text : string) : Row :=
  {| row_Index := i; row_Values := [ Some {| GetValue := GStringPtr (Some text) |} ] |}.

Definition dynamic_table (rows : list (result Row)) : Table :=
  {| table_Name := "PrimaryResult"; table_Kind := "PrimaryResult";
     table_Columns := [ {| column_Name := "Id"; column_Type := types.Long |};
                        {| column_Name := "Payload"; column_Type := types.Dynamic |} ];
     table_Rows := rows |}.

Definition dynamic_row (i id : Z) (payload : gvalue) : Row :=
  {| row_Index := i;
     row_Values := [ Some {| GetValue := GIntPtr (Some id) |}; Some {| GetValue := payload |} ] |}.

(** Two rows of a table with a dynamic column. *)
Definition two_rows : list (result Row) :=
  [ Delivered (dynamic_row 0 7 (GBytes (sample.bytes "{}")));
    Delivered (dynamic_row 1 8 (GBytesPtr None)) ].

Definition query_world (tables : list (result Table)) : World :=
  sample.world ["kusto"] [("KUSTO_CLUSTER", "https://c1.eastus.kusto.windows.net");
                          ("KUSTO_DATABASE", "sampledb")]
    (inr (sample.client None None (inr tables))).

(** A column named like a synthetic key takes the key's place in the
    record: the row index is gone from both records of this table. *)
Definition clash_table : Table :=
  {| table_Name := "PrimaryResult"; table_Kind := "PrimaryResult";
     table_Columns := [ {| column_Name := "_rowIndex"; column_Type := types.String |} ];
     table_Rows := [ Delivered (message_row 0 "x"); Delivered (message_row 1 "x") ] |}.

(** The same run with the map iteration going the other way round. *)
Definition reverse_iteration (w : World) : World := {|
  os_Args := os_Args w;
  os_Getenv := os_Getenv w;
  azkustodata_New := azkustodata_New w;
  time_Since := time_Since w;
  map_range := λ m, reverse (map_to_list m);
|}.

(** * Properties *)

(** ** Substrings *)

Lemma app_cons (a : ascii) (s t : string) : String a s +:+ t = String a (s +:+ t).
Proof. reflexivity. Qed.

Lemma app_empty_l (s : string) : "" +:+ s = s.
Proof. reflexivity. Qed.

Lemma HasPrefix_spec (s p : string) :
  strings.HasPrefix s p = true ↔ ∃ post, s = p +:+ post.
Proof.
  revert s. induction p as [|a p IH]; intros s; cbn [strings.HasPrefix].
  - split; [intros _; by exists s | intros _; by destruct s].
  - destruct s as [|b s].
    + split; [done | intros [post Hpost]; discriminate Hpost].
    + cbn [strings.HasPrefix]. destruct (decide (a = b)) as [<-|Hab].
      * rewrite IH. split.
        -- intros [post ->]. by exists post.
        -- intros [post Hpost]. rewrite app_cons in Hpost.
           injection Hpost as ->. by exists post.
      * split; [done | intros [post Hpost]].
        rewrite app_cons in Hpost. injection Hpost as Hba _. by destruct Hab.
Qed.

Lemma Contains_spec (s sub : string) :
  strings.Contains s sub = true ↔ occurs_in sub s.
Proof.
  unfold occurs_in. induction s as [|c s IH]; cbn [strings.Contains].
  - destruct (strings.HasPrefix "" sub) eqn:Hp.
    + apply HasPrefix_spec in Hp as [post Hpost].
      split; [intros _; exists "", post; by rewrite app_empty_l | done].
    + split; [done | intros (pre & post & Heq)].
      destruct pre as [|a pre]; [|discriminate Heq].
      rewrite app_empty_l in Heq.
      assert (strings.HasPrefix "" sub = true) as Hp'
        by (apply HasPrefix_spec; by exists post).
      congruence.
  - destruct (strings.HasPrefix (String c s) sub) eqn:Hp.
    + apply HasPrefix_spec in Hp as [post Hpost].
      split; [intros _; exists "", post; by rewrite app_empty_l | done].
    + rewrite IH. split.
      * intros (pre & post & ->). by exists (String c pre), post.
      * intros (pre & post & Heq). destruct pre as [|a pre].
        -- rewrite app_empty_l in Heq.
           assert (strings.HasPrefix (String c s) sub = true) as Hp'
             by (apply HasPrefix_spec; by exists post).
           congruence.
        -- rewrite app_cons in Heq. injection Heq as _ ->. by exists pre, post.
Qed.

(** ** Error classification *)

Section classification.
Context `{GoRuntime}.

(** C6. Classification reads nothing but the lower-cased text of the error:
    an error is a permission error exactly when that text contains
    "forbidden", "403", "insufficient" or "permission"; it is a
    table-not-found error exactly when that text contains "semantic", one of
    "table" and "name", and "not".  Two errors with the same lower-cased text
    are classified alike. *)
Theorem classification_by_lowercased_text (err err' : error) :
  let msg := ToLower (Error err) in
  (isPermissionErr err = true ↔
     occurs_in "forbidden" msg ∨ occurs_in "403" msg
     ∨ occurs_in "insufficient" msg ∨ occurs_in "permission" msg)
  ∧ (isTableNotFound err = true ↔
       occurs_in "semantic" msg
       ∧ (occurs_in "table" msg ∨ occurs_in "name" msg)
       ∧ occurs_in "not" msg)
  ∧ (ToLower (Error err') = msg →
       isPermissionErr err' = isPermissionErr err
       ∧ isTableNotFound err' = isTableNotFound err).
Proof.
  intros msg. unfold isPermissionErr, isTableNotFound. fold msg.
  split_and!.
  - rewrite !orb_true_iff, !Contains_spec. tauto.
  - rewrite !andb_true_iff, !orb_true_iff, !Contains_spec. tauto.
  - intros ->. done.
Qed.

End classification.

(** The classification of two differently capitalised errors of the service. *)
Lemma classification_by_lowercased_text_witness :
  @isPermissionErr sample.runtime (sample.err "HTTP 403 FORBIDDEN")
    = @isPermissionErr sample.runtime (sample.err "http 403 forbidden")
  ∧ @isTableNotFound sample.runtime (sample.err "HTTP 403 FORBIDDEN")
    = @isTableNotFound sample.runtime (sample.err "http 403 forbidden").
Proof.
  apply (@classification_by_lowercased_text sample.runtime
           (sample.err "http 403 forbidden") (sample.err "HTTP 403 FORBIDDEN")).
  reflexivity.
Defined.

Example isPermissionErr_403 :
  @isPermissionErr sample.runtime (sample.err "Request failed: 403 Forbidden") = true.
Proof. reflexivity. Qed.

Example isTableNotFound_semantic :
  @isTableNotFound sample.runtime
     (sample.err "Semantic error: 'ProbeTest' Table could NOT be resolved") = true.
Proof. reflexivity. Qed.

Example isTableNotFound_needs_semantic :
  @isTableNotFound sample.runtime (sample.err "table not found") = false.
Proof. reflexivity. Qed.

(** ** Running processes *)

Lemma bind_returned {A B : Type} (t : list event) (a : A) (f : A → M B) :
  ((t, Returned a) : M A) ≫= f = ((t ++ (f a).1, (f a).2) : M B).
Proof. unfold mbind, M_bind. by destruct (f a). Qed.

Lemma bind_exited {A B : Type} (t : list event) (code : Z) (f : A → M B) :
  ((t, Exited code) : M A) ≫= f = ((t, Exited code) : M B).
Proof. reflexivity. Qed.

Lemma calls_app (t1 t2 : list event) : calls (t1 ++ t2) = calls t1 ++ calls t2.
Proof. unfold calls. apply omap_app. Qed.

Lemma stdout_app (t1 t2 : list event) : stdout (t1 ++ t2) = stdout t1 ++ stdout t2.
Proof. unfold stdout. apply omap_app. Qed.

Section runs.
Context `{GoRuntime} (w : World).

Lemma failTimed_exits (step : string) (d : Z) (msg : string) (err : option error)
    (suggest : string) :
  result_of (failTimed step d msg err suggest) = Exited 1
  ∧ calls (trace (failTimed step d msg err suggest)) = []
  ∧ Forall (λ e, ∃ l, e = Stdout l) (trace (failTimed step d msg err suggest)).
Proof.
  unfold failTimed, when. destruct (bool_decide (suggest ≠ "")); cbn;
    split_and!; try done; repeat constructor; eauto.
Qed.

Lemma resolveClusterURL_returned (arg cluster : string) :
  result_of (resolveClusterURL w arg) = Returned cluster →
  resolveClusterURL w arg = ([], Returned cluster).
Proof.
  unfold resolveClusterURL. repeat case_decide; cbn; intros Hr; by simplify_eq.
Qed.

Lemma resolveClusterURL_no_calls (arg : string) :
  calls (trace (resolveClusterURL w arg)) = [].
Proof. unfold resolveClusterURL. by repeat case_decide. Qed.

Lemma queryHasAnyRow_returns (ctx : Z) (client : Client) (db q : string) :
  ∃ t r, queryHasAnyRow ctx client db q = (t, Returned r)
         ∧ calls t = [CallIterativeQuery ctx db q].
Proof.
  unfold queryHasAnyRow. destruct (IterativeQuery client db q) as [e|tables]; cbn; eauto.
Qed.

End runs.

(** ** The probe *)

Lemma bind_pure {A B : Type} (a : A) (f : A → M B) :
  (([], Returned a) : M A) ≫= f = f a.
Proof. unfold mbind, M_bind. by destruct (f a). Qed.

Lemma calls_remote (c : call) (t : list event) : calls (Remote c :: t) = c :: calls t.
Proof. reflexivity. Qed.

Lemma calls_stdout (l : string) (t : list event) : calls (Stdout l :: t) = calls t.
Proof. reflexivity. Qed.

Section probe.
Context `{GoRuntime} (w : World).

Lemma mgmtStep_failed (T : Z) (client : Client) (e : error) :
  Mgmt client "" ".show version" = Some e →
  mgmtStep w T client
  = (Remote (CallMgmt T "" ".show version")
       :: trace (failTimed "mgmt" (time_Since w "mgmt") ".show version failed" (Some e)
                   (suggestionForEndpointOrAuth e)),
     Exited 1).
Proof.
  intros He. unfold mgmtStep. rewrite He.
  destruct (failTimed_exits "mgmt" (time_Since w "mgmt") ".show version failed" (Some e)
              (suggestionForEndpointOrAuth e)) as (Hr & _).
  destruct (failTimed _ _ _ _ _) as [t o]. cbn in *. by subst o.
Qed.

Lemma mgmtStep_passed (T : Z) (client : Client) :
  Mgmt client "" ".show version" = None →
  mgmtStep w T client
  = ([Remote (CallMgmt T "" ".show version");
      Stdout ("OK mgmt (" +:+ pretty (time.Milliseconds (time_Since w "mgmt"))
              +:+ "ms): cluster reachable")],
     Returned tt).
Proof. intros He. unfold mgmtStep. by rewrite He. Qed.

Lemma databaseStep_failed (T : Z) (client : Client) (db : string) (e : error) :
  Query client db "print 1" = Some e →
  databaseStep w T client db
  = (Remote (CallQuery T db "print 1")
       :: trace (failTimed "database" (time_Since w "database") "basic query failed" (Some e)
                   (suggestionForDatabase e db)),
     Exited 1).
Proof.
  intros He. unfold databaseStep. rewrite He.
  destruct (failTimed_exits "database" (time_Since w "database") "basic query failed" (Some e)
              (suggestionForDatabase e db)) as (Hr & _).
  destruct (failTimed _ _ _ _ _) as [t o]. cbn in *. by subst o.
Qed.

Lemma databaseStep_passed (T : Z) (client : Client) (db : string) :
  Query client db "print 1" = None →
  databaseStep w T client db
  = ([Remote (CallQuery T db "print 1");
      Stdout ("OK database (" +:+ pretty (time.Milliseconds (time_Since w "database"))
              +:+ "ms): db ok: " +:+ db)],
     Returned tt).
Proof. intros He. unfold databaseStep. by rewrite He. Qed.

(** Step 3 makes its one call, and passes exactly when [queryHasAnyRow]
    reports a row and no error; otherwise the process exits with status 1. *)
Lemma dataSampleStep_run (T : Z) (client : Client) (db table marker : string) :
  let step := dataSampleStep w T client db table marker in
  let found := queryHasAnyRow T client db (sampleQuery table marker) in
  calls (trace step) = [CallIterativeQuery T db (sampleQuery table marker)]
  ∧ (result_of found = Returned (true, None) → result_of step = Returned tt)
  ∧ (result_of found ≠ Returned (true, None) → result_of step = Exited 1).
Proof.
  intros step found. subst step found. unfold dataSampleStep.
  destruct (queryHasAnyRow_returns T client db (sampleQuery table marker))
    as (t & [has derr] & -> & Hc).
  rewrite bind_returned. cbn [trace result_of fst snd]. rewrite calls_app, Hc.
  destruct derr as [e|].
  - pose proof (failTimed_exits "data-sample" (time_Since w "data-sample")
                  ("sample table not found: " +:+ table) (Some e)
                  "Run kusto.sh probe or create to initialize the sample table.") as (R1 & C1 & _).
    pose proof (failTimed_exits "data-sample" (time_Since w "data-sample")
                  ("no access to sample table: " +:+ table) (Some e)
                  suggestionForPermissions) as (R2 & C2 & _).
    pose proof (failTimed_exits "data-sample" (time_Since w "data-sample")
                  "query failed for sample table" (Some e) (suggestionForQuery table))
      as (R3 & C3 & _).
    destruct (failTimed _ _ ("sample table not found: " +:+ table) _ _) as [t1 o1].
    destruct (failTimed _ _ ("no access to sample table: " +:+ table) _ _) as [t2 o2].
    destruct (failTimed _ _ "query failed for sample table" _ _) as [t3 o3].
    cbn in R1, R2, R3, C1, C2, C3. subst o1 o2 o3.
    destruct (isTableNotFound e), (isPermissionErr e); cbn;
      rewrite ?C1, ?C2, ?C3; split_and!; (done || by intros [=]).
  - pose proof (failTimed_exits "data-sample" (time_Since w "data-sample")
                  ("expected row not found in " +:+ table +:+ " (Message=='" +:+ marker +:+ "')")
                  None "Initialize sample data via kusto.sh or verify ingestion.") as (R1 & C1 & _).
    destruct (failTimed _ _ _ _ _) as [t1 o1]. cbn in R1, C1. subst o1.
    destruct has; cbn; rewrite ?C1; split_and!; (done || by intros [=]).
Qed.

Lemma probeSteps_run (client : Client) :
  let found := queryHasAnyRow (probe_timeout w) client (probe_database w)
                 (sampleQuery (probe_table w) (probe_marker w)) in
  match Mgmt client "" ".show version" with
  | Some _ => calls (trace (probeSteps w client)) = [step1 w]
              ∧ result_of (probeSteps w client) = Exited 1
  | None =>
      match Query client (probe_database w) "print 1" with
      | Some _ => calls (trace (probeSteps w client)) = [step1 w; step2 w]
                  ∧ result_of (probeSteps w client) = Exited 1
      | None => calls (trace (probeSteps w client)) = [step1 w; step2 w; step3 w]
                ∧ (result_of found = Returned (true, None) →
                   result_of (probeSteps w client) = Returned tt)
                ∧ (result_of found ≠ Returned (true, None) →
                   result_of (probeSteps w client) = Exited 1)
      end
  end.
Proof.
  intros found. unfold probeSteps.
  destruct (Mgmt client "" ".show version") as [e1|] eqn:H1.
  { rewrite (mgmtStep_failed _ _ e1 H1), bind_exited.
    cbn [trace result_of fst snd]. rewrite calls_remote.
    destruct (failTimed_exits "mgmt" (time_Since w "mgmt") ".show version failed" (Some e1)
                (suggestionForEndpointOrAuth e1)) as (_ & -> & _). done. }
  rewrite (mgmtStep_passed _ _ H1), bind_returned.
  destruct (Query client (probe_database w) "print 1") as [e2|] eqn:H2.
  { rewrite (databaseStep_failed _ _ _ e2 H2), bind_exited.
    cbn [trace result_of fst snd app]. rewrite !calls_remote, calls_stdout, calls_remote.
    destruct (failTimed_exits "database" (time_Since w "database") "basic query failed"
                (Some e2) (suggestionForDatabase e2 (probe_database w))) as (_ & -> & _). done. }
  rewrite (databaseStep_passed _ _ _ H2), bind_returned.
  destruct (dataSampleStep_run (probe_timeout w) client (probe_database w) (probe_table w)
              (probe_marker w)) as (Hc & Hpass & Hfail).
  unfold trace, result_of in *. cbn [fst snd] in *. rewrite !calls_app, Hc. done.
Qed.

Lemma runProbe_with_client (arg : string) (client : Client) :
  probe_client w arg client →
  runProbe w arg = (emit (Open TheClient);; defer (emit (Close TheClient)) (probeSteps w client)).
Proof.
  intros (cluster & Hres & Hnew). apply resolveClusterURL_returned in Hres.
  unfold runProbe. rewrite Hres, bind_pure. by rewrite Hnew.
Qed.

Lemma client_scope_calls {A : Type} (body : M A) :
  calls (trace (emit (Open TheClient);; defer (emit (Close TheClient)) body))
  = calls (trace body)
  ∧ result_of (emit (Open TheClient);; defer (emit (Close TheClient)) body) = result_of body.
Proof.
  destruct body as [t [a|code]]; cbn; [|done].
  by rewrite calls_app, app_nil_r.
Qed.

Lemma runProbe_calls (arg : string) :
  calls (trace (runProbe w arg)) `prefix_of` [step1 w; step2 w; step3 w].
Proof.
  unfold runProbe.
  destruct (resolveClusterURL w arg) as [t0 [cluster|code]] eqn:Hres.
  2:{ pose proof (resolveClusterURL_no_calls w arg) as Hc. rewrite Hres in Hc.
      cbn in *. rewrite Hc. apply prefix_nil. }
  assert (result_of (resolveClusterURL w arg) = Returned cluster) as Hr by by rewrite Hres.
  apply resolveClusterURL_returned in Hr. rewrite Hr in Hres. injection Hres as <-.
  rewrite bind_pure.
  destruct (azkustodata_New w cluster) as [e|client] eqn:Hnew.
  { unfold fail, when. case_bool_decide; cbn; apply prefix_nil. }
  fold (probe_database w) (probe_table w) (probe_marker w) (probe_timeout w).
  fold (probeSteps w client).
  destruct (client_scope_calls (probeSteps w client)) as [-> _].
  pose proof (probeSteps_run client) as Hsteps. cbn zeta in Hsteps.
  destruct (Mgmt client "" ".show version"); [destruct Hsteps as [-> _]|].
  { by exists [step2 w; step3 w]. }
  destruct (Query client (probe_database w) "print 1"); destruct Hsteps as [-> _].
  + by exists [step3 w].
  + done.
Qed.

(** C2. The probe makes its calls in the order management, database, sample
    data, and stops at the first that fails: when the management call fails
    it is the only call made, when the database query fails no sample-data
    query is made, and in both cases, as when the third step fails, the
    process exits with status 1. *)
Theorem probe_steps_in_order (arg : string) :
  let run := runProbe w arg in
  let found client :=
    result_of (queryHasAnyRow (probe_timeout w) client (probe_database w)
                 (sampleQuery (probe_table w) (probe_marker w))) in
  calls (trace run) `prefix_of` [step1 w; step2 w; step3 w]
  ∧ ∀ client, probe_client w arg client →
      (∀ e, Mgmt client "" ".show version" = Some e →
            calls (trace run) = [step1 w] ∧ result_of run = Exited 1)
      ∧ (∀ e, Mgmt client "" ".show version" = None →
              Query client (probe_database w) "print 1" = Some e →
              calls (trace run) = [step1 w; step2 w] ∧ result_of run = Exited 1)
      ∧ (Mgmt client "" ".show version" = None →
         Query client (probe_database w) "print 1" = None →
         calls (trace run) = [step1 w; step2 w; step3 w]
         ∧ (found client = Returned (true, None) → result_of run = Returned tt)
         ∧ (found client ≠ Returned (true, None) → result_of run = Exited 1)).
Proof.
  intros run found. subst run found. split; [apply runProbe_calls|].
  intros client Hclient. rewrite (runProbe_with_client _ _ Hclient).
  destruct (client_scope_calls (probeSteps w client)) as [-> ->].
  pose proof (probeSteps_run client) as Hsteps. cbn zeta in Hsteps.
  split_and!.
  - intros e He. by rewrite He in Hsteps.
  - intros e He1 He2. by rewrite He1, He2 in Hsteps.
  - intros He1 He2. by rewrite He1, He2 in Hsteps.
Qed.

End probe.

(** With the management call failing, the probe makes that call only. *)
Lemma probe_steps_in_order_witness :
  calls (trace (@runProbe sample.runtime (probe_world (Some boom) None (inr [])) "c1"))
  = [CallMgmt 3000000000 "" ".show version"]
  ∧ result_of (@runProbe sample.runtime (probe_world (Some boom) None (inr [])) "c1")
    = Exited 1.
Proof.
  pose proof (@probe_steps_in_order sample.runtime
                (probe_world (Some boom) None (inr [])) "c1") as [_ Hstop].
  destruct (Hstop (sample.client (Some boom) None (inr []))) as (Hmgmt & _).
  { exists "https://c1.eastus.kusto.windows.net". split; reflexivity. }
  exact (Hmgmt boom eq_refl).
Defined.

Example probe_database_failure :
  @main sample.runtime
     (probe_world None (Some (sample.err "Database 'sampledb' not found")) (inr []))
  = ([Open TheClient;
      Remote (CallMgmt 3000000000 "" ".show version");
      Stdout "OK mgmt (120ms): cluster reachable";
      Remote (CallQuery 3000000000 "sampledb" "print 1");
      Stdout "FAIL database (120ms): basic query failed: Database 'sampledb' not found";
      Stdout "SUGGEST database: Database 'sampledb' not found. Verify KUSTO_DATABASE or create it (see kusto.sh)."],
     Exited 1).
Proof. reflexivity. Qed.

(** ** The missing row *)

Lemma stdout_cons_out (l : string) (t : list event) : stdout (Stdout l :: t) = l :: stdout t.
Proof. reflexivity. Qed.

Section missing_row.
Context `{GoRuntime} (w : World).

Lemma failTimed_first_line (step : string) (d : Z) (msg : string) (err : option error)
    (suggest : string) :
  ∃ rest, stdout (trace (failTimed step d msg err suggest)) = failLine step d msg err :: rest.
Proof.
  unfold failTimed, when. destruct (bool_decide (suggest ≠ "")); cbn; eauto.
Qed.

Lemma queryHasAnyRow_silent (ctx : Z) (client : Client) (db q : string) :
  stdout (trace (queryHasAnyRow ctx client db q)) = [].
Proof.
  unfold queryHasAnyRow. by destruct (IterativeQuery client db q) as [e|tables].
Qed.

Lemma client_scope_stdout {A : Type} (body : M A) :
  stdout (trace (emit (Open TheClient);; defer (emit (Close TheClient)) body))
  = stdout (trace body).
Proof.
  destruct body as [t [a|code]]; cbn; [|done].
  fold (stdout (t ++ [Close TheClient])). by rewrite stdout_app, app_nil_r.
Qed.

Lemma probeSteps_reach_data (client : Client) :
  Mgmt client "" ".show version" = None →
  Query client (probe_database w) "print 1" = None →
  let step := dataSampleStep w (probe_timeout w) client (probe_database w)
                (probe_table w) (probe_marker w) in
  stdout (trace (probeSteps w client))
  = [ "OK mgmt (" +:+ pretty (time.Milliseconds (time_Since w "mgmt"))
        +:+ "ms): cluster reachable";
      "OK database (" +:+ pretty (time.Milliseconds (time_Since w "database"))
        +:+ "ms): db ok: " +:+ probe_database w ] ++ stdout (trace step)
  ∧ result_of (probeSteps w client) = result_of step.
Proof.
  intros Hm Hq step. unfold probeSteps.
  rewrite (mgmtStep_passed _ _ _ Hm), bind_returned.
  rewrite (databaseStep_passed _ _ _ _ Hq), bind_returned.
  fold step. unfold trace, result_of. cbn [fst snd]. by rewrite !stdout_app.
Qed.

Lemma dataSampleStep_unfold (T : Z) (client : Client) (db table marker : string)
    (has : bool) (derr : option error) :
  result_of (queryHasAnyRow T client db (sampleQuery table marker)) = Returned (has, derr) →
  let rest : M unit :=
    match derr with
    | Some derr =>
        when (isTableNotFound derr)
          (failTimed "data-sample" (time_Since w "data-sample")
             ("sample table not found: " +:+ table) (Some derr)
             "Run kusto.sh probe or create to initialize the sample table.");;
        when (isPermissionErr derr)
          (failTimed "data-sample" (time_Since w "data-sample")
             ("no access to sample table: " +:+ table) (Some derr)
             suggestionForPermissions);;
        failTimed "data-sample" (time_Since w "data-sample")
          "query failed for sample table" (Some derr) (suggestionForQuery table)
    | None => mret tt
    end;;
    when (negb has)
      (failTimed "data-sample" (time_Since w "data-sample")
         ("expected row not found in " +:+ table +:+ " (Message=='" +:+ marker +:+ "')")
         None "Initialize sample data via kusto.sh or verify ingestion.");;
    okTimed "data-sample" (time_Since w "data-sample")
      ("sample table ok: " +:+ table +:+ " contains expected data");;
    emit (Stdout "OK probe: endpoint, db, and data access validated") in
  stdout (trace (dataSampleStep w T client db table marker)) = stdout (trace rest)
  ∧ result_of (dataSampleStep w T client db table marker) = result_of rest.
Proof.
  intros Hfound rest. unfold dataSampleStep.
  pose proof (queryHasAnyRow_silent T client db (sampleQuery table marker)) as Hsilent.
  destruct (queryHasAnyRow T client db (sampleQuery table marker)) as [t o].
  unfold trace, result_of in *. cbn [fst snd] in *. subst o.
  rewrite bind_returned. fold rest. unfold trace, result_of. cbn [fst snd].
  by rewrite stdout_app, Hsilent.
Qed.

(** C4. When the first two steps pass and the sample-data query ends without
    error and without a row, the probe prints a failure line of step
    "data-sample" whose message says the expected row was not found, a
    message that is none of the three messages of a failed query, and whose
    error is rendered as the nil error; it then exits with status 1, the
    status it also exits with when the query fails. *)
Theorem probe_row_not_found (arg : string) (client : Client) :
  let run := runProbe w arg in
  let found := result_of (queryHasAnyRow (probe_timeout w) client (probe_database w)
                            (sampleQuery (probe_table w) (probe_marker w))) in
  probe_client w arg client →
  Mgmt client "" ".show version" = None →
  Query client (probe_database w) "print 1" = None →
  (rowNotFound w ∉ queryFailures w)
  ∧ (found = Returned (false, None) →
       stdout (trace run)
       = [ "OK mgmt (" +:+ pretty (time.Milliseconds (time_Since w "mgmt"))
             +:+ "ms): cluster reachable";
           "OK database (" +:+ pretty (time.Milliseconds (time_Since w "database"))
             +:+ "ms): db ok: " +:+ probe_database w;
           failLine "data-sample" (time_Since w "data-sample") (rowNotFound w) None;
           "SUGGEST data-sample: Initialize sample data via kusto.sh or verify ingestion." ]
       ∧ result_of run = Exited 1)
  ∧ (∀ has e, found = Returned (has, Some e) →
       (∃ msg, msg ∈ queryFailures w
               ∧ stdout (trace run) !! 2%nat
                 = Some (failLine "data-sample" (time_Since w "data-sample") msg (Some e)))
       ∧ result_of run = Exited 1).
Proof.
  intros run found Hclient Hm Hq. subst run found.
  rewrite (runProbe_with_client _ _ _ Hclient), client_scope_stdout.
  destruct (client_scope_calls (probeSteps w client)) as [_ ->].
  destruct (probeSteps_reach_data client Hm Hq) as [-> ->].
  split_and!.
  - unfold rowNotFound, queryFailures. rewrite !elem_of_cons, elem_of_nil.
    intros [Heq|[Heq|[Heq|[]]]]; rewrite ?app_cons in Heq; discriminate Heq.
  - intros Hfound.
    destruct (dataSampleStep_unfold _ _ _ _ _ _ _ Hfound) as [-> ->]. done.
  - intros has e Hfound.
    destruct (dataSampleStep_unfold _ _ _ _ _ _ _ Hfound) as [-> ->].
    destruct (failTimed_first_line "data-sample" (time_Since w "data-sample")
                ("sample table not found: " +:+ probe_table w) (Some e)
                "Run kusto.sh probe or create to initialize the sample table.") as [r1 L1].
    destruct (failTimed_first_line "data-sample" (time_Since w "data-sample")
                ("no access to sample table: " +:+ probe_table w) (Some e)
                suggestionForPermissions) as [r2 L2].
    destruct (failTimed_first_line "data-sample" (time_Since w "data-sample")
                "query failed for sample table" (Some e)
                (suggestionForQuery (probe_table w))) as [r3 L3].
    pose proof (failTimed_exits "data-sample" (time_Since w "data-sample")
                  ("sample table not found: " +:+ probe_table w) (Some e)
                  "Run kusto.sh probe or create to initialize the sample table.") as (R1 & _).
    pose proof (failTimed_exits "data-sample" (time_Since w "data-sample")
                  ("no access to sample table: " +:+ probe_table w) (Some e)
                  suggestionForPermissions) as (R2 & _).
    pose proof (failTimed_exits "data-sample" (time_Since w "data-sample")
                  "query failed for sample table" (Some e)
                  (suggestionForQuery (probe_table w))) as (R3 & _).
    destruct (failTimed _ _ ("sample table not found: " +:+ probe_table w) _ _) as [t1 o1].
    destruct (failTimed _ _ ("no access to sample table: " +:+ probe_table w) _ _) as [t2 o2].
    destruct (failTimed _ _ "query failed for sample table" _ _) as [t3 o3].
    unfold trace, result_of in *. cbn [fst snd] in *. subst o1 o2 o3.
    unfold queryFailures.
    destruct (isTableNotFound e), (isPermissionErr e);
      cbn [when mbind M_bind mret M_ret app fst snd].
    all: split; [|done].
    + exists ("sample table not found: " +:+ probe_table w). rewrite L1. split; [set_solver|done].
    + exists ("sample table not found: " +:+ probe_table w). rewrite L1. split; [set_solver|done].
    + exists ("no access to sample table: " +:+ probe_table w). rewrite L2.
      split; [set_solver|done].
    + exists "query failed for sample table". rewrite L3. split; [set_solver|done].
Qed.

End missing_row.

(** The probe of a cluster whose sample table is empty. *)
Lemma probe_row_not_found_witness :
  stdout (trace (@runProbe sample.runtime (probe_world None None (inr [])) "c1"))
  = [ "OK mgmt (120ms): cluster reachable";
      "OK database (120ms): db ok: sampledb";
      "FAIL data-sample (120ms): expected row not found in ProbeTest (Message=='kusto-sample-ok'): <nil>";
      "SUGGEST data-sample: Initialize sample data via kusto.sh or verify ingestion." ]
  ∧ result_of (@runProbe sample.runtime (probe_world None None (inr [])) "c1") = Exited 1.
Proof.
  destruct (@probe_row_not_found sample.runtime (probe_world None None (inr [])) "c1"
              (sample.client None None (inr []))) as (_ & Hsoft & _).
  - exists "https://c1.eastus.kusto.windows.net". split; reflexivity.
  - reflexivity.
  - reflexivity.
  - exact (Hsoft eq_refl).
Defined.

(** ** [queryHasAnyRow] *)

Lemma scanTables_cases (tables : list (result Table)) :
  (scanTables tables = (true, None) ∧ reaches_row tables)
  ∨ (∃ e, scanTables tables = (false, Some e) ∧ reaches_error e tables)
  ∨ (scanTables tables = (false, None) ∧ Forall passed_over tables).
Proof.
  induction tables as [|[e|t] tables IH]; cbn [scanTables].
  - right; right. by split.
  - right; left. exists e. split; [done|]. exists [], tables. split; [done|by left].
  - assert (passed_over (Delivered t) →
            (scanTables tables = (true, None) ∧ reaches_row (Delivered t :: tables))
            ∨ (∃ e, scanTables tables = (false, Some e)
                    ∧ reaches_error e (Delivered t :: tables))
            ∨ (scanTables tables = (false, None)
               ∧ Forall passed_over (Delivered t :: tables))) as Hskip.
    { intros Hp. destruct IH as [[-> Hrow]|[(e & -> & Herr)|[-> Hall]]].
      - left. split; [done|]. destruct Hrow as (pre & t' & row & rows & post & -> & ? & ? & ?).
        exists (Delivered t :: pre), t', row, rows, post.
        split_and!; [done|by constructor|done|done].
      - right; left. exists e. split; [done|].
        destruct Herr as (pre & post & Hpre & Hcase).
        exists (Delivered t :: pre), post. split; [by constructor|].
        destruct Hcase as [->|(t' & rows & -> & ? & ?)]; [by left|right].
        by exists t', rows.
      - right; right. split; [done|by constructor]. }
    case_decide as Hname.
    { apply Hskip. exists t. split; [done|]. intros; by destruct Hname. }
    destruct (table_Rows t) as [|[e|row] rows] eqn:Hrows.
    + apply Hskip. by exists t.
    + right; left. exists e. split; [done|]. exists [], tables. split; [done|right].
      exists t, rows. split_and!; [done| |done].
      by destruct (decide (table_Name t = "PrimaryResult")).
    + left. split; [done|]. exists [], t, row, rows, tables.
      split_and!; [done|done| |done]. by destruct (decide (table_Name t = "PrimaryResult")).
Qed.

Lemma scanTables_passed_over (pre rest : list (result Table)) :
  Forall passed_over pre → scanTables (pre ++ rest) = scanTables rest.
Proof.
  induction 1 as [|tr pre (t & -> & Hrows) _ IH]; [done|].
  cbn [app scanTables]. case_decide as Hname; [done|].
  rewrite Hrows; [done|]. by destruct (decide (table_Name t = "PrimaryResult")).
Qed.

Lemma scanTables_reaches_row (tables : list (result Table)) :
  scanTables tables = (true, None) ↔ reaches_row tables.
Proof.
  split.
  - intros Hs. destruct (scanTables_cases tables) as [[_ ?]|[(e & He & _)|[He _]]];
      [done|congruence..].
  - intros (pre & t & row & rows & post & -> & Hpre & Hname & Hrows).
    rewrite scanTables_passed_over by done. cbn [scanTables].
    rewrite Hrows. by case_decide.
Qed.

Lemma scanTables_reaches_error (e : error) (tables : list (result Table)) :
  scanTables tables = (false, Some e) ↔ reaches_error e tables.
Proof.
  split.
  - intros Hs. destruct (scanTables_cases tables) as [[He _]|[(e' & He & ?)|[He _]]];
      [congruence| |congruence].
    rewrite Hs in He. by simplify_eq.
  - intros (pre & post & Hpre & [->|(t & rows & -> & Hname & Hrows)]);
      rewrite scanTables_passed_over by done; cbn [scanTables]; [done|].
    rewrite Hrows. by case_decide.
Qed.

Lemma scanTables_without_other_rows (tables : list (result Table)) :
  scanTables (without_other_rows tables) = scanTables tables.
Proof.
  induction tables as [|[e|t] tables IH]; cbn; [done..|].
  fold (without_other_rows tables).
  destruct (decide (table_Name t = "PrimaryResult")) as [Hn|Hn].
  - cbn [scanTables]. case_decide; [done|]. by rewrite IH.
  - cbn [scanTables table_Name table_Rows]. case_decide; [done|]. by rewrite IH.
Qed.

(** C10. [queryHasAnyRow] always returns.  It returns true and no error
    exactly when the first thing the stream holds, beyond tables delivered
    without error that are not named "PrimaryResult" or have an empty row
    channel, is a row of a table named "PrimaryResult".  It returns false and
    an error exactly when the query is refused with that error or the first
    such thing is that error, of a table or of the first row of a
    "PrimaryResult" table.  The rows of the other tables do not matter. *)
Theorem queryHasAnyRow_spec (ctx : Z) (client client' : Client) (db q : string) :
  let found := result_of (queryHasAnyRow ctx client db q) in
  (∃ has derr, found = Returned (has, derr))
  ∧ (found = Returned (true, None) ↔
       ∃ tables, IterativeQuery client db q = inr tables ∧ reaches_row tables)
  ∧ (∀ e, found = Returned (false, Some e) ↔
       IterativeQuery client db q = inl e
       ∨ ∃ tables, IterativeQuery client db q = inr tables ∧ reaches_error e tables)
  ∧ (∀ tables tables',
       IterativeQuery client db q = inr tables →
       IterativeQuery client' db q = inr tables' →
       without_other_rows tables' = without_other_rows tables →
       result_of (queryHasAnyRow ctx client' db q) = found).
Proof.
  intros found. subst found. unfold queryHasAnyRow.
  destruct (IterativeQuery client db q) as [e0|tables] eqn:Hq; cbn.
  - split_and!.
    + eauto.
    + split; [done|]. by intros (? & ? & _).
    + intros e. split.
      * intros [= ->]. by left.
      * intros [[= ->]|(? & ? & _)]; done.
    + done.
  - split_and!.
    + destruct (scanTables tables); eauto.
    + split.
      * intros [= Hs]. apply scanTables_reaches_row in Hs. eauto.
      * intros (? & [= <-] & Hs). apply scanTables_reaches_row in Hs. by rewrite Hs.
    + intros e. split.
      * intros [= Hs]. apply scanTables_reaches_error in Hs. eauto.
      * intros [?|(? & [= <-] & Hs)]; [done|].
        apply scanTables_reaches_error in Hs. by rewrite Hs.
    + intros ? tables' [= <-] -> Hsame. cbn.
      by rewrite <-(scanTables_without_other_rows tables'), Hsame,
                   scanTables_without_other_rows.
Qed.

(** A row of another table does not make up for an empty primary result. *)
Lemma queryHasAnyRow_spec_witness :
  result_of (queryHasAnyRow 3000000000
               (sample.client None None
                  (inr [Delivered (properties [Delivered (message_row 0 "x")]);
                        Delivered (primary [])]))
               "sampledb" "ProbeTest | take 1")
  = result_of (queryHasAnyRow 3000000000
                 (sample.client None None
                    (inr [Delivered (properties []); Delivered (primary [])]))
                 "sampledb" "ProbeTest | take 1").
Proof.
  eapply queryHasAnyRow_spec; reflexivity.
Defined.

Example queryHasAnyRow_row_after_error :
  result_of (queryHasAnyRow 3000000000
               (sample.client None None
                  (inr [Delivered (primary [Failed boom; Delivered (message_row 1 "x")])]))
               "sampledb" "ProbeTest | take 1")
  = Returned (false, Some boom).
Proof. reflexivity. Qed.

(** ** The time-out of a probe step *)

Lemma TrimSpace_empty `{GoRuntime} : TrimSpace "" = "".
Proof. reflexivity. Qed.

Section timeout.
Context `{GoRuntime} (w : World).

(** C8. The time-out of the probe's steps comes from the environment
    variable [KUSTO_PROBE_TIMEOUT]: when its trimmed value is empty (an unset
    variable reads as empty) or is refused by the duration parser the
    time-out is 3 seconds, otherwise it is the parsed duration; and every
    remote call of the probe is made under that time-out. *)
Theorem probe_timeout_from_env (arg : string) :
  let v := TrimSpace (os_Getenv w "KUSTO_PROBE_TIMEOUT") in
  (v = "" ∨ time_ParseDuration v = None → probe_timeout w = 3000000000)
  ∧ (os_Getenv w "KUSTO_PROBE_TIMEOUT" = "" → probe_timeout w = 3000000000)
  ∧ (∀ d, v ≠ "" → time_ParseDuration v = Some d → probe_timeout w = d)
  ∧ Forall (λ c, call_timeout c = probe_timeout w) (calls (trace (runProbe w arg))).
Proof.
  intros v. unfold probe_timeout, getDurationEnv. fold v. split_and!.
  - intros [->| ->]; [done|]. by case_decide.
  - subst v. intros ->. by rewrite TrimSpace_empty.
  - intros d Hv ->. by case_decide.
  - fold (probe_timeout w). destruct (runProbe_calls w arg) as [rest Hrest].
    assert (Forall (λ c, call_timeout c = probe_timeout w) [step1 w; step2 w; step3 w]) as Hall
      by (repeat constructor).
    rewrite Hrest in Hall. by apply Forall_app in Hall as [? _].
Qed.

End timeout.

Lemma probe_timeout_from_env_witness :
  @probe_timeout sample.runtime
     (sample.world ["kusto"; "probe"; "c1"] [("KUSTO_PROBE_TIMEOUT", " 250ms ")]
        (inr (sample.client None None (inr []))))
  = 250000000.
Proof.
  apply (@probe_timeout_from_env sample.runtime
           (sample.world ["kusto"; "probe"; "c1"] [("KUSTO_PROBE_TIMEOUT", " 250ms ")]
              (inr (sample.client None None (inr [])))) "c1").
  - discriminate.
  - reflexivity.
Defined.

Example probe_timeout_unparseable :
  @probe_timeout sample.runtime
     (sample.world ["kusto"; "probe"; "c1"] [("KUSTO_PROBE_TIMEOUT", "soon")]
        (inr (sample.client None None (inr []))))
  = 3 * time.Second.
Proof. reflexivity. Qed.

(** ** Quoting the expected marker *)

Lemma ReplaceAll_quote (s : string) : strings.ReplaceAll s "'" "''" = double_quotes s.
Proof.
  unfold strings.ReplaceAll. induction s as [|c s IH]; [done|].
  cbn [strings.replaceFrom double_quotes strings.HasPrefix String.length Nat.sub].
  destruct (decide ("'"%char = c)) as [<-|Hc].
  - rewrite decide_True by done. destruct s; cbn [strings.HasPrefix]; by rewrite IH.
  - rewrite decide_False by done. by rewrite IH.
Qed.

Lemma read_quoted_double_quotes (m rest : string) :
  strings.HasPrefix rest "'" = false →
  read_quoted (double_quotes m +:+ String "'" rest) = Some (m, rest).
Proof.
  intros Hrest. induction m as [|c m IH].
  - cbn [double_quotes]. rewrite app_empty_l.
    cbn [read_quoted]. rewrite decide_True by done.
    destruct rest as [|c' rest']; [done|].
    cbn [strings.HasPrefix] in Hrest. destruct (decide ("'"%char = c')) as [<-|Hc].
    + by destruct rest'.
    + rewrite decide_False by done. done.
  - cbn [double_quotes]. destruct (decide (c = "'"%char)) as [->|Hc].
    + rewrite 2!app_cons. cbn [read_quoted]. rewrite !decide_True by done.
      by rewrite IH.
    + rewrite app_cons. cbn [read_quoted]. rewrite decide_False by done.
      by rewrite IH.
Qed.

Section quoting.
Context `{GoRuntime} (w : World).

Lemma runInitSample_calls (arg : string) :
  calls (trace (runInitSample w arg)) `prefix_of` [init_create w; init_append w].
Proof.
  unfold runInitSample.
  destruct (resolveClusterURL w arg) as [t0 [cluster|code]] eqn:Hres.
  2:{ pose proof (resolveClusterURL_no_calls w arg) as Hc. rewrite Hres in Hc.
      cbn in *. rewrite Hc. apply prefix_nil. }
  assert (result_of (resolveClusterURL w arg) = Returned cluster) as Hr by by rewrite Hres.
  apply resolveClusterURL_returned in Hr. rewrite Hr in Hres. injection Hres as <-.
  rewrite bind_pure.
  destruct (azkustodata_New w cluster) as [e|client] eqn:Hnew; [apply prefix_nil|].
  fold (probe_database w) (probe_table w) (probe_marker w).
  rewrite (proj1 (client_scope_calls _)).
  destruct (Mgmt client (probe_database w) (createCommand (probe_table w))) as [e|].
  { by exists [init_append w]. }
  destruct (Mgmt client (probe_database w) (appendCommand (probe_table w) (probe_marker w)));
    by exists [].
Qed.

(** C3. For every marker, the filter query of the probe and the append
    command of the initializer hold the marker between single quotes with
    each of its single quotes doubled; read back as a quoted literal in
    which a doubled quote stands for a quote, the text between the quotes is
    the marker itself and the rest of the statement follows it untouched.
    These are the statements the probe sends as its third call and the
    initializer as its second. *)
Theorem marker_quotes_doubled (arg table marker : string) :
  sampleQuery table marker
    = table +:+ " | where Message == '" +:+ double_quotes marker +:+ "' | take 1"
  ∧ appendCommand table marker
    = ".set-or-append " +:+ table +:+ " <| print Message='" +:+ double_quotes marker
      +:+ "', When=now()"
  ∧ read_quoted (double_quotes marker +:+ "' | take 1") = Some (marker, " | take 1")
  ∧ read_quoted (double_quotes marker +:+ "', When=now()") = Some (marker, ", When=now()")
  ∧ calls (trace (runProbe w arg)) `prefix_of` [step1 w; step2 w; step3 w]
  ∧ calls (trace (runInitSample w arg)) `prefix_of` [init_create w; init_append w].
Proof.
  unfold sampleQuery, appendCommand. rewrite ReplaceAll_quote. split_and!.
  - done.
  - done.
  - by apply (read_quoted_double_quotes marker " | take 1").
  - by apply (read_quoted_double_quotes marker ", When=now()").
  - apply runProbe_calls.
  - apply runInitSample_calls.
Qed.

End quoting.

Example ReplaceAll_leftmost :
  strings.ReplaceAll "aXYbXYXc" "XY" "-" = "a-b-Xc".
Proof. reflexivity. Qed.

Example sampleQuery_quote :
  sampleQuery "ProbeTest" "it's 'ok'"
  = "ProbeTest | where Message == 'it''s ''ok''' | take 1".
Proof. reflexivity. Qed.

Example read_quoted_quote :
  read_quoted "it''s ''ok''' | take 1" = Some ("it's 'ok'", " | take 1").
Proof. reflexivity. Qed.

Example init_sample_quote :
  calls (trace (@main sample.runtime
                  (sample.world ["kusto"; "init-sample"; "c1"]
                     [("KUSTO_PROBE_EXPECT_MESSAGE", "it's")]
                     (inr (sample.client None None (inr []))))))
  = [CallMgmt 30000000000 "sampledb"
       ".create-merge table ProbeTest (Message:string, When:datetime)";
     CallMgmt 30000000000 "sampledb"
       ".set-or-append ProbeTest <| print Message='it''s', When=now()"].
Proof. reflexivity. Qed.

(** ** The projection of a row *)

Section projection.
Context `{GoRuntime}.

Lemma project_columns_keeps (i : nat) (cols : list Column) (vals : list (option Kusto))
    (obj : gmap string any) (k : string) :
  is_Some (obj !! k) → is_Some (project_columns i cols vals obj !! k).
Proof.
  revert i obj. induction cols as [|c cols IH]; intros i obj Hk; cbn [project_columns]; [done|].
  destruct (vals !! i) as [v|]; apply IH; [|done].
  destruct (decide (column_Name c = k)) as [->|Hne].
  - rewrite lookup_insert_eq. eauto.
  - by rewrite lookup_insert_ne.
Qed.

(** A key that no projected column bears keeps its value. *)
Lemma project_columns_other (i : nat) (cols : list Column) (vals : list (option Kusto))
    (obj : gmap string any) (k : string) :
  (∀ j c, cols !! j = Some c → is_Some (vals !! (i + j)%nat) → column_Name c ≠ k) →
  project_columns i cols vals obj !! k = obj !! k.
Proof.
  revert i obj. induction cols as [|c cols IH]; intros i obj Hother; cbn [project_columns]; [done|].
  assert (∀ j c', cols !! j = Some c' → is_Some (vals !! (S i + j)%nat) → column_Name c' ≠ k)
    as Hrest.
  { intros j c' Hj Hv. apply (Hother (S j) c' Hj). by rewrite Nat.add_succ_r. }
  destruct (vals !! i) as [v|] eqn:Hv; rewrite IH by done; [|done].
  apply lookup_insert_ne, (Hother 0%nat c); [done|]. rewrite Nat.add_0_r, Hv. eauto.
Qed.

(** The value of a column is in the record under the column's name, unless
    a later projected column bears the same name. *)
Lemma project_columns_at (i j : nat) (cols : list Column) (vals : list (option Kusto))
    (obj : gmap string any) (c : Column) (v : option Kusto) :
  cols !! j = Some c →
  vals !! (i + j)%nat = Some v →
  (∀ j' c', (j < j')%nat → cols !! j' = Some c' → is_Some (vals !! (i + j')%nat) →
            column_Name c' ≠ column_Name c) →
  project_columns i cols vals obj !! column_Name c = Some (column_value c v).
Proof.
  revert i j obj. induction cols as [|c0 cols IH]; intros i j obj Hj Hv Hlater; [done|].
  cbn [project_columns]. destruct j as [|j].
  - injection Hj as ->. rewrite Nat.add_0_r in Hv. rewrite Hv.
    rewrite project_columns_other.
    + apply lookup_insert_eq.
    + intros j c' Hj' Hv'. apply (Hlater (S j) c'); [lia|done|]. by rewrite Nat.add_succ_r.
  - assert (project_columns (S i) cols vals
              (match vals !! i with
               | Some v0 => <[column_Name c0 := column_value c0 v0]> obj
               | None => obj
               end) !! column_Name c = Some (column_value c v)) as Hgoal.
    { apply (IH (S i) j); [done|by rewrite Nat.add_succ_r in Hv|].
      intros j' c' Hlt Hj' Hv'. apply (Hlater (S j') c'); [lia|done|].
      by rewrite Nat.add_succ_r. }
    by destruct (vals !! i).
Qed.

(** C1. For a column of declared type dynamic that has a value in the row,
    the loop over the columns stores under the column's name the decoded
    document when the bytes of the value parse as JSON, those bytes as a
    string when they do not, and null when the value is nil or a nil pointer
    to bytes; there is no value for which it stores nothing.  What it stores
    is the field of the finished record unless a later column that has a
    value bears the same name. *)
Theorem dynamic_column_projected (table : Table) (row : Row) (i : nat) (c : Column)
    (v : option Kusto) :
  table_Columns table !! i = Some c →
  row_Values row !! i = Some v →
  column_Type c = types.Dynamic →
  ∃ x, record_after (S i) table row !! column_Name c = Some x
    ∧ (∀ b j, payload v = Some b → json_Unmarshal b = Some j → x = any_of_json j)
    ∧ (∀ b, payload v = Some b → json_Unmarshal b = None → x = GoString (string_of_bytes b))
    ∧ (absent v → x = Nil)
    ∧ ((∀ j c', (i < j)%nat → table_Columns table !! j = Some c' →
                is_Some (row_Values row !! j) → column_Name c' ≠ column_Name c) →
       project_row table row !! column_Name c = Some x).
Proof.
  intros Hc Hv Hdyn. exists (column_value c v). split_and!.
  - unfold record_after, project_row, first_columns. cbn [table_Columns table_Name table_Kind].
    apply (project_columns_at 0 i); [|done|].
    + rewrite lookup_take_lt by lia. done.
    + intros j c' Hlt Hj. rewrite lookup_take_ge in Hj by lia. done.
  - intros b j Hb Hj. unfold column_value, payload in *. rewrite Hdyn.
    destruct v as [[g]|]; [|done]. cbn [GetValue] in *. rewrite decide_True by done.
    destruct g as [b'|[b'|]| | | | |]; simplify_eq; by rewrite Hj.
  - intros b Hb Hj. unfold column_value, payload in *. rewrite Hdyn.
    destruct v as [[g]|]; [|done]. cbn [GetValue] in *. rewrite decide_True by done.
    destruct g as [b'|[b'|]| | | | |]; simplify_eq; by rewrite Hj.
  - unfold column_value. rewrite Hdyn. intros [->|(k & -> & Hk)]; [done|].
    rewrite decide_True by done. by rewrite Hk.
  - intros Hlater. unfold project_row. by apply (project_columns_at 0 i).
Qed.

End projection.

(** A payload that is not JSON ends up in the record as text. *)
Lemma dynamic_column_projected_witness :
  @project_row sample.runtime (dynamic_table [])
     (dynamic_row 0 7 (GBytes (sample.bytes "{oops"))) !! "Payload"
  = Some (GoString "{oops").
Proof.
  destruct (@dynamic_column_projected sample.runtime (dynamic_table [])
              (dynamic_row 0 7 (GBytes (sample.bytes "{oops"))) 1
              {| column_Name := "Payload"; column_Type := types.Dynamic |}
              (Some {| GetValue := GBytes (sample.bytes "{oops") |}))
    as (x & _ & _ & Htext & _ & Hfield).
  - reflexivity.
  - reflexivity.
  - reflexivity.
  - pose proof (Htext (sample.bytes "{oops") eq_refl eq_refl) as Hx. subst x.
    apply Hfield.
    intros [|[|[|j]]] c' Hlt Hc'; try lia; discriminate Hc'.
Defined.

Example dynamic_column_parsed :
  @project_row sample.runtime (dynamic_table [])
     (dynamic_row 0 7 (GBytesPtr (Some (sample.bytes "[]")))) !! "Payload"
  = Some (Decoded (JArray [])).
Proof. reflexivity. Qed.

Example dynamic_column_nil_pointer :
  @project_row sample.runtime (dynamic_table []) (dynamic_row 0 7 (GBytesPtr None)) !! "Payload"
  = Some Nil.
Proof. reflexivity. Qed.

(** ** The default mode *)

Lemma bind_mret {A B : Type} (a : A) (f : A → M B) : mret a ≫= f = f a.
Proof. apply bind_pure. Qed.

Section default_mode.
Context `{GoRuntime} (w : World).

Lemma queryMode_stdout :
  stdout (trace (queryMode w))
  = match query_stream w with
    | Some tables => stdout (trace (tablesLoop w tables))
    | None => []
    end.
Proof.
  unfold queryMode, query_stream, getenvOrExit.
  destruct (decide (os_Getenv w "KUSTO_CLUSTER" = "")); [done|]. rewrite bind_mret.
  destruct (decide (os_Getenv w "KUSTO_DATABASE" = "")); [done|]. rewrite bind_mret.
  destruct (azkustodata_New w (os_Getenv w "KUSTO_CLUSTER")) as [e|client]; [done|].
  rewrite client_scope_stdout.
  assert ((if decide (os_Getenv w "KUSTO_QUERY" = "") then defaultQuery
           else getenv w "KUSTO_QUERY" defaultQuery) = getenv w "KUSTO_QUERY" defaultQuery) as ->.
  { unfold getenv. by case_decide. }
  destruct (IterativeQuery client _ _) as [e|tables]; [done|].
  destruct (tablesLoop w tables) as [t [[]|code]]; cbn; [|done].
  fold (stdout (t ++ [Close TheDataset])). by rewrite stdout_app, app_nil_r.
Qed.

(** The [k]-th line a table gives is the record of its [k]-th row. *)
Lemma rowsLoop_emits (table : Table) (rows : list (result Row)) (k : nat) (line : string) :
  stdout (trace (rowsLoop w table rows)) !! k = Some line →
  ∃ row, rows !! k = Some (Delivered row)
         ∧ json_Marshal w (project_row table row) = inr line.
Proof.
  revert k. induction rows as [|[e|row] rows IH]; intros k; cbn [rowsLoop]; [done..|].
  destruct (json_Marshal w (project_row table row)) as [e|enc] eqn:Henc; [done|].
  unfold emit. rewrite bind_returned. unfold trace. cbn [fst app].
  rewrite stdout_cons_out. destruct k as [|k]; cbn [lookup list_lookup].
  - intros [= <-]. eauto.
  - apply IH.
Qed.

Lemma tablesLoop_groups (tables : list (result Table)) :
  stdout (trace (tablesLoop w tables)) = concat ((table_groups w tables).*2)
  ∧ Delivered <$> (table_groups w tables).*1 `prefix_of` tables
  ∧ ∀ table lines, (table, lines) ∈ table_groups w tables →
                   lines = stdout (trace (rowsLoop w table (table_Rows table))).
Proof.
  induction tables as [|[e|t] tables (Hout & Hpre & Hin)]; cbn [tablesLoop table_groups].
  - split_and!; [done|done|]. intros ?? Hel. by apply elem_of_nil in Hel.
  - split_and!; [done|apply prefix_nil|]. intros ?? Hel. by apply elem_of_nil in Hel.
  - destruct (rowsLoop w t (table_Rows t)) as [lines [[]|code]] eqn:Hrows;
      unfold trace, result_of in *; cbn [fst snd fmap list_fmap concat].
    + rewrite bind_returned. unfold trace. cbn [fst]. rewrite stdout_app, Hout.
      split_and!; [done|by apply prefix_cons|].
      intros table lines' [[= -> ->]|Hel]%elem_of_cons; [by rewrite Hrows|by apply Hin].
    + rewrite bind_exited. cbn [fst]. rewrite app_nil_r.
      split_and!; [done|apply prefix_cons, prefix_nil|].
      intros table lines' [[= -> ->]|Hel]%elem_of_cons; [by rewrite Hrows|].
      by apply elem_of_nil in Hel.
Qed.

Lemma project_row_synthetic (table : Table) (row : Row) :
  let obj := project_row table row in
  (is_Some (obj !! "_table") ∧ is_Some (obj !! "_kind") ∧ is_Some (obj !! "_rowIndex"))
  ∧ (no_column_named "_table" table → obj !! "_table" = Some (GoString (table_Name table)))
  ∧ (no_column_named "_kind" table → obj !! "_kind" = Some (GoString (table_Kind table)))
  ∧ (no_column_named "_rowIndex" table → obj !! "_rowIndex" = Some (GoInt (row_Index row))).
Proof.
  intros obj. subst obj. unfold project_row.
  assert (∀ key, no_column_named key table →
            ∀ j c, table_Columns table !! j = Some c →
                   is_Some (row_Values row !! (0 + j)%nat) → column_Name c ≠ key) as Hfree.
  { intros key Hkey j c Hj _. apply Hkey. by eapply list_elem_of_lookup_2. }
  cbv zeta. split_and!.
  - apply project_columns_keeps; by simplify_map_eq.
  - apply project_columns_keeps; by simplify_map_eq.
  - apply project_columns_keeps; by simplify_map_eq.
  - intros Hkey. rewrite project_columns_other by by apply Hfree. by simplify_map_eq.
  - intros Hkey. rewrite project_columns_other by by apply Hfree. by simplify_map_eq.
  - intros Hkey. rewrite project_columns_other by by apply Hfree. by simplify_map_eq.
Qed.

(** C7 (as amended). The output of the default mode is, table by table in
    the order of the stream, one line per row in the order of the rows; the
    [k]-th line of a table is the JSON of the record of its [k]-th row.
    Every such record has the keys [_table], [_kind] and [_rowIndex].  A key
    that is not also the name of a column of the table holds the table's
    name, the table's kind and the row's index; with the rows numbered from
    zero by the SDK, [_rowIndex] of the [k]-th line is [k]. *)
Theorem records_carry_synthetic_keys :
  stdout (trace (queryMode w)) = concat (output_groups w).*2
  ∧ (∀ tables, query_stream w = Some tables →
       Delivered <$> (output_groups w).*1 `prefix_of` tables)
  ∧ ∀ table lines k line,
      (table, lines) ∈ output_groups w → lines !! k = Some line →
      ∃ row, table_Rows table !! k = Some (Delivered row)
        ∧ json_Marshal w (project_row table row) = inr line
        ∧ (is_Some (project_row table row !! "_table")
           ∧ is_Some (project_row table row !! "_kind")
           ∧ is_Some (project_row table row !! "_rowIndex"))
        ∧ (no_column_named "_table" table →
           project_row table row !! "_table" = Some (GoString (table_Name table)))
        ∧ (no_column_named "_kind" table →
           project_row table row !! "_kind" = Some (GoString (table_Kind table)))
        ∧ (no_column_named "_rowIndex" table →
           project_row table row !! "_rowIndex" = Some (GoInt (row_Index row))
           ∧ (sdk_numbered table →
              project_row table row !! "_rowIndex" = Some (GoInt (Z.of_nat k)))).
Proof.
  rewrite queryMode_stdout. unfold output_groups.
  destruct (query_stream w) as [tables|].
  2:{ split_and!; [done|done|]. intros ???? Hin. by apply elem_of_nil in Hin. }
  destruct (tablesLoop_groups tables) as (Hout & Hpre & Hlines).
  split_and!; [done|by intros ? [= <-]|].
  intros table lines k line Hin Hline. rewrite (Hlines _ _ Hin) in Hline.
  destruct (rowsLoop_emits _ _ _ _ Hline) as (row & Hrow & Henc).
  exists row. destruct (project_row_synthetic table row) as (Hkeys & Ht & Hk & Hi).
  split_and!; try done; try apply Hkeys.
  intros Hfree. split; [by apply Hi|].
  intros Hnum. rewrite (Hi Hfree). by rewrite (Hnum k row Hrow).
Qed.

End default_mode.

(** The second record of the table has row index 1. *)
Lemma records_carry_synthetic_keys_witness :
  @project_row sample.runtime (dynamic_table two_rows) (dynamic_row 1 8 (GBytesPtr None))
     !! "_rowIndex" = Some (GoInt 1).
Proof.
  destruct (@records_carry_synthetic_keys sample.runtime
              (query_world [Delivered (dynamic_table two_rows)])) as (_ & _ & Hrec).
  pose (lines := stdout (trace (@rowsLoop sample.runtime
                                  (query_world [Delivered (dynamic_table two_rows)])
                                  (dynamic_table two_rows) two_rows))).
  destruct (Hrec (dynamic_table two_rows) lines 1%nat (default "" (lines !! 1%nat)))
    as (row & Hrow & _ & _ & _ & _ & Hindex).
  - vm_compute. left.
  - reflexivity.
  - injection Hrow as <-. apply Hindex.
    + intros c Hc. repeat (apply elem_of_cons in Hc as [->|Hc]; [discriminate|]).
      by apply elem_of_nil in Hc.
    + intros [|[|k]] r Hr; simplify_eq/=; done.
Defined.

Lemma row_index_overwritten :
  @project_row sample.runtime clash_table (message_row 0 "x") !! "_rowIndex"
    = Some (Native (GStringPtr (Some "x")))
  ∧ @project_row sample.runtime clash_table (message_row 1 "x") !! "_rowIndex"
    = Some (Native (GStringPtr (Some "x")))
  ∧ ¬ (∀ table row, @project_row sample.runtime table row !! "_rowIndex"
                    = Some (GoInt (row_Index row))).
Proof.
  split_and!; [reflexivity..|].
  intros Hall. specialize (Hall clash_table (message_row 0 "x")). discriminate Hall.
Qed.

(** ** The order of the keys *)

#[local] Instance key_le_trans : Transitive key_le.
Proof. intros x y z. unfold key_le. apply transitivity. Qed.

#[local] Instance key_le_total : Total key_le.
Proof. intros x y. unfold key_le. apply total, _. Qed.

(** Sorting by key does not depend on the order the entries come in, when
    no key occurs twice. *)
Lemma sort_entries_order (l1 l2 : list (string * any)) :
  l1 ≡ₚ l2 → NoDup l1.*1 →
  merge_sort key_le l1 = merge_sort key_le l2.
Proof.
  intros Hperm Hnodup.
  apply (Sorted_unique_strong key_le).
  - intros x1 x2 Hx1 Hx2 H12 H21.
    assert (x1.1 = x2.1) as Hkey by (by apply (anti_symm String.le)).
    rewrite merge_sort_Permutation in Hx1, Hx2. rewrite <-Hperm in Hx2.
    apply list_elem_of_lookup in Hx1 as [i1 Hi1]. apply list_elem_of_lookup in Hx2 as [i2 Hi2].
    assert (i1 = i2) as ->.
    { apply (NoDup_lookup _ i1 i2 x1.1 Hnodup); rewrite list_lookup_fmap.
      - by rewrite Hi1.
      - rewrite Hi2. cbn. by rewrite Hkey. }
    congruence.
  - apply Sorted_merge_sort, _.
  - apply Sorted_merge_sort, _.
  - by rewrite !merge_sort_Permutation.
Qed.

Section determinism.
Context `{GoRuntime}.

Lemma json_Marshal_order (w1 w2 : World) (obj : gmap string any) :
  iterates_maps w1 → iterates_maps w2 → json_Marshal w1 obj = json_Marshal w2 obj.
Proof.
  intros H1 H2. unfold json_Marshal, marshal_entries.
  rewrite (sort_entries_order (map_range w1 obj) (map_range w2 obj)); [done| |].
  - by rewrite (H1 obj), (H2 obj).
  - rewrite (H1 obj). apply NoDup_fst_map_to_list.
Qed.

Lemma rowsLoop_order (w1 w2 : World) (table : Table) (rows : list (result Row)) :
  iterates_maps w1 → iterates_maps w2 → rowsLoop w1 table rows = rowsLoop w2 table rows.
Proof.
  intros H1 H2. induction rows as [|[e|row] rows IH]; cbn [rowsLoop]; [done..|].
  rewrite (json_Marshal_order w1 w2) by done. by rewrite IH.
Qed.

Lemma tablesLoop_order (w1 w2 : World) (tables : list (result Table)) :
  iterates_maps w1 → iterates_maps w2 → tablesLoop w1 tables = tablesLoop w2 tables.
Proof.
  intros H1 H2. induction tables as [|[e|t] tables IH]; cbn [tablesLoop]; [done..|].
  by rewrite (rowsLoop_order w1 w2), IH.
Qed.

(** Runs with the same three configuration variables and the same answers of
    the SDK read the same stream. *)
Lemma query_stream_same_inputs (w1 w2 : World) :
  (∀ key, key ∈ ["KUSTO_CLUSTER"; "KUSTO_DATABASE"; "KUSTO_QUERY"] →
          os_Getenv w1 key = os_Getenv w2 key) →
  (∀ cluster, azkustodata_New w1 cluster = azkustodata_New w2 cluster) →
  query_stream w1 = query_stream w2.
Proof.
  intros Henv Hnew. unfold query_stream, getenv.
  rewrite !(Henv "KUSTO_CLUSTER"), !(Henv "KUSTO_DATABASE"), !(Henv "KUSTO_QUERY"), Hnew;
    [done|set_solver..].
Qed.

(** C9. Two runs of the default mode that are given the same stream of
    tables, columns and row values (or both none) print the same lines,
    whatever order each run's map iteration takes: the keys of every record
    are written in sorted order. *)
Theorem ndjson_deterministic (w1 w2 : World) :
  iterates_maps w1 → iterates_maps w2 →
  query_stream w1 = query_stream w2 →
  stdout (trace (queryMode w1)) = stdout (trace (queryMode w2)).
Proof.
  intros H1 H2 Hstream. rewrite !queryMode_stdout, Hstream.
  destruct (query_stream w2) as [tables|]; [|done].
  by rewrite (tablesLoop_order w1 w2).
Qed.

End determinism.

Lemma ndjson_deterministic_witness :
  stdout (trace (@queryMode sample.runtime (query_world [Delivered (dynamic_table two_rows)])))
  = stdout (trace (@queryMode sample.runtime
                     (reverse_iteration (query_world [Delivered (dynamic_table two_rows)])))).
Proof.
  apply (@ndjson_deterministic sample.runtime).
  - intros m. reflexivity.
  - intros m. apply reverse_Permutation.
  - reflexivity.
Defined.

Example query_mode_two_lines :
  length (stdout (trace (@main sample.runtime (query_world [Delivered (dynamic_table two_rows)]))))
  = 2%nat.
Proof. reflexivity. Qed.

(** ** Resources on the paths that exit *)

Lemma unreleased_bind {A B : Type} (r : resource) (m : M A) (f : A → M B) :
  unreleased r (trace m) → (∀ a, unreleased r (trace (f a))) →
  unreleased r (trace (m ≫= f)).
Proof.
  destruct m as [t [a|code]]; intros Hm Hf; [|done].
  rewrite bind_returned. unfold unreleased, trace in *. cbn [fst] in *.
  rewrite elem_of_app. intros [?|?]; [done|by apply (Hf a)].
Qed.

Lemma unreleased_defer {A : Type} (r : resource) (f : M unit) (body : M A) :
  unreleased r (trace f) → unreleased r (trace body) → unreleased r (trace (defer f body)).
Proof.
  destruct body as [t [a|code]], f as [t' [[]|code']]; unfold unreleased, trace; cbn;
    rewrite ?elem_of_app; tauto.
Qed.

Lemma unreleased_emit (r : resource) (e : event) :
  e ≠ Close r → unreleased r (trace (emit e)).
Proof.
  intros He. unfold unreleased, emit, trace. cbn. intros Hin%list_elem_of_singleton.
  congruence.
Qed.

Lemma unreleased_mret {A : Type} (r : resource) (a : A) : unreleased r (trace (mret a : M A)).
Proof. apply not_elem_of_nil. Qed.

Lemma unreleased_exit {A : Type} (r : resource) (code : Z) :
  unreleased r (trace (os_Exit code : M A)).
Proof. apply not_elem_of_nil. Qed.

Lemma unreleased_fatal {A : Type} (r : resource) (line : string) :
  unreleased r (trace (log_Fatalf line : M A)).
Proof. unfold unreleased, trace. cbn. by intros Hin%list_elem_of_singleton. Qed.

Lemma unreleased_when (r : resource) (b : bool) (m : M unit) :
  unreleased r (trace m) → unreleased r (trace (when b m)).
Proof. destruct b; [done|]. intros _. apply unreleased_mret. Qed.

(** One step of a proof that a process does not release a resource. *)
Ltac unreleased_step :=
  first
    [ apply unreleased_mret | apply unreleased_exit | apply unreleased_fatal
    | apply unreleased_emit; discriminate
    | apply unreleased_when
    | apply unreleased_defer
    | apply unreleased_bind; [|intros ?]
    | match goal with |- context [match ?x with _ => _ end] => destruct x end ].

Ltac unreleased := repeat unreleased_step.

Lemma emit_then {A : Type} (e : event) (m : M A) :
  (emit e;; m) = (e :: trace m, result_of m).
Proof. by destruct m as [t [a|code]]. Qed.

(** A scope that opens a resource and defers its closing has the result of
    its body, and when the process exits inside the scope the deferred call
    is not run: the scope adds nothing but the opening to the trace. *)
Lemma scope_result {A : Type} (r : resource) (body : M A) :
  result_of (emit (Open r);; defer (emit (Close r)) body) = result_of body.
Proof. by destruct body as [t [a|code]]. Qed.

Lemma scope_exit {A : Type} (r r' : resource) (body : M A) (code : Z) :
  unreleased r' (trace body) →
  result_of body = Exited code →
  unreleased r' (trace (emit (Open r);; defer (emit (Close r)) body)).
Proof.
  destruct body as [t [a|c]]; [done|]. unfold unreleased, trace. cbn. intros Hbody _.
  by intros [?|?]%elem_of_cons.
Qed.

Section resources.
Context `{GoRuntime} (w : World).

Lemma failTimed_unreleased (r : resource) (step : string) (d : Z) (msg : string)
    (err : option error) (suggest : string) :
  unreleased r (trace (failTimed step d msg err suggest)).
Proof. unfold failTimed. unreleased. Qed.

Lemma rowsLoop_unreleased (r : resource) (table : Table) (rows : list (result Row)) :
  unreleased r (trace (rowsLoop w table rows)).
Proof. induction rows as [|[e|row] rows IH]; cbn [rowsLoop]; unreleased. done. Qed.

Lemma tablesLoop_unreleased (r : resource) (tables : list (result Table)) :
  unreleased r (trace (tablesLoop w tables)).
Proof.
  induction tables as [|[e|t] tables IH]; cbn [tablesLoop]; unreleased; [|done].
  apply rowsLoop_unreleased.
Qed.

Lemma probeSteps_keeps_client (client : Client) :
  unreleased TheClient (trace (probeSteps w client)).
Proof.
  unfold probeSteps, mgmtStep, databaseStep, dataSampleStep, queryHasAnyRow, okTimed.
  unreleased; apply failTimed_unreleased.
Qed.

(** The default mode from the query on, inside the scope of the client. *)
Lemma query_body_exit (client : Client) (database q : string) (code : Z) :
  let body : M unit :=
    emit (Remote (CallIterativeQuery (2 * time.Minute) database q));;
    match IterativeQuery client database q with
    | inl err => log_Fatalf ("query submission failed: " +:+ Error err)
    | inr tables => emit (Open TheDataset);; defer (emit (Close TheDataset)) (tablesLoop w tables)
    end in
  result_of body = Exited code →
  unreleased TheClient (trace body) ∧ unreleased TheDataset (trace body).
Proof.
  intros body. subst body.
  match goal with |- context [emit _ ≫= λ _, ?m] => set (rest := m) end.
  rewrite emit_then.
  change (result_of rest = Exited code →
          unreleased TheClient (Remote (CallIterativeQuery (2 * time.Minute) database q)
                                  :: trace rest)
          ∧ unreleased TheDataset (Remote (CallIterativeQuery (2 * time.Minute) database q)
                                     :: trace rest)).
  intros Hexit.
  assert (unreleased TheClient (trace rest) ∧ unreleased TheDataset (trace rest)) as [Hc Hd].
  { subst rest. destruct (IterativeQuery client database q) as [e|tables].
    - split; apply unreleased_fatal.
    - rewrite scope_result in Hexit.
      split; apply (scope_exit _ _ _ code); try done; apply tablesLoop_unreleased. }
  unfold unreleased in *. rewrite !not_elem_of_cons. by split_and!.
Qed.

Lemma queryMode_exit (code : Z) :
  result_of (queryMode w) = Exited code →
  unreleased TheClient (trace (queryMode w)) ∧ unreleased TheDataset (trace (queryMode w)).
Proof.
  unfold queryMode, getenvOrExit.
  destruct (decide (os_Getenv w "KUSTO_CLUSTER" = "")); [intros _; split; unreleased|].
  rewrite bind_mret.
  destruct (decide (os_Getenv w "KUSTO_DATABASE" = "")); [intros _; split; unreleased|].
  rewrite bind_mret.
  destruct (azkustodata_New w _) as [e|client]; [intros _; split; unreleased|].
  rewrite scope_result. intros Hexit.
  destruct (query_body_exit client _ _ code Hexit) as [Hclient Hdataset].
  split; by apply (scope_exit _ _ _ code).
Qed.

Lemma runProbe_exit (arg : string) (code : Z) :
  result_of (runProbe w arg) = Exited code → unreleased TheClient (trace (runProbe w arg)).
Proof.
  unfold runProbe, resolveClusterURL, fail.
  repeat case_decide; rewrite ?bind_mret; try (intros _; by unreleased).
  all: destruct (azkustodata_New w _) as [e|client]; [intros _; by unreleased|].
  all: rewrite scope_result; intros Hexit.
  all: apply (scope_exit _ _ _ code); [apply probeSteps_keeps_client|done].
Qed.

Lemma runInitSample_exit (arg : string) (code : Z) :
  result_of (runInitSample w arg) = Exited code →
  unreleased TheClient (trace (runInitSample w arg)).
Proof.
  unfold runInitSample, resolveClusterURL.
  repeat case_decide; rewrite ?bind_mret; try (intros _; by unreleased).
  all: destruct (azkustodata_New w _) as [e|client]; [intros _; by unreleased|].
  all: rewrite scope_result; intros Hexit.
  all: apply (scope_exit _ _ _ code); [by unreleased|done].
Qed.

(** C5 (what the code does). Whenever the process exits, in any mode,
    the deferred [client.Close()] has not been run, and in the default mode
    neither has the deferred [dataset.Close()]: no path that ends in an exit
    closes the client, nor the dataset of the default mode. *)
Theorem exit_skips_deferred_close (code : Z) :
  (result_of (main w) = Exited code → Close TheClient ∉ trace (main w))
  ∧ (result_of (queryMode w) = Exited code → Close TheDataset ∉ trace (queryMode w)).
Proof.
  split; [|by intros (_ & ?)%queryMode_exit].
  unfold main. destruct (os_Args w) as [|? [|mode rest]]; repeat case_decide; intros Hexit;
    first [by eapply queryMode_exit | by eapply runProbe_exit | by eapply runInitSample_exit].
Qed.

End resources.

(** The default mode meeting a table error: the client and the dataset are
    open when the process exits, and neither is closed. *)
Lemma exit_skips_deferred_close_witness :
  (Close TheClient ∉ trace (@main sample.runtime (query_world [Failed boom])))
  ∧ (Close TheDataset ∉ trace (@queryMode sample.runtime (query_world [Failed boom]))).
Proof.
  destruct (@exit_skips_deferred_close sample.runtime (query_world [Failed boom]) 1)
    as [Hclient Hdataset].
  split; [apply Hclient | apply Hdataset]; reflexivity.
Defined.

Example query_mode_table_error :
  @main sample.runtime (query_world [Delivered (dynamic_table []); Failed boom])
  = ([Open TheClient;
      Remote (CallIterativeQuery 120000000000 "sampledb" defaultQuery);
      Open TheDataset;
      Stderr "table error: boom"],
     Exited 1).
Proof. reflexivity. Qed.

Example query_mode_row_error :
  @main sample.runtime
     (query_world
        [Delivered (dynamic_table [Failed boom; Delivered (dynamic_row 1 8 (GBytesPtr None))])])
  = ([Open TheClient;
      Remote (CallIterativeQuery 120000000000 "sampledb" defaultQuery);
      Open TheDataset;
      Stderr "row error: boom"],
     Exited 1).
Proof. reflexivity. Qed.

Example query_mode_submission_error :
  @main sample.runtime
     (sample.world ["kusto"] [("KUSTO_CLUSTER", "https://c1.eastus.kusto.windows.net");
                              ("KUSTO_DATABASE", "sampledb")]
        (inr (sample.client None None (inl boom))))
  = ([Open TheClient;
      Remote (CallIterativeQuery 120000000000 "sampledb" defaultQuery);
      Stderr "query submission failed: boom"],
     Exited 1).
Proof. reflexivity. Qed.

Example probe_failure_keeps_client :
  trace (@main sample.runtime (probe_world None None (inl boom)))
  = [Open TheClient;
     Remote (CallMgmt 3000000000 "" ".show version");
     Stdout "OK mgmt (120ms): cluster reachable";
     Remote (CallQuery 3000000000 "sampledb" "print 1");
     Stdout "OK database (120ms): db ok: sampledb";
     Remote (CallIterativeQuery 3000000000 "sampledb"
               "ProbeTest | where Message == 'kusto-sample-ok' | take 1");
     Stdout "FAIL data-sample (120ms): query failed for sample table: boom";
     Stdout "SUGGEST data-sample: Investigate query or connectivity issues for table 'ProbeTest'."].
Proof. reflexivity. Qed.

Example normal_return_closes :
  trace (@main sample.runtime (query_world []))
  = [Open TheClient;
     Remote (CallIterativeQuery 120000000000 "sampledb" defaultQuery);
     Open TheDataset; Close TheDataset; Close TheClient].
Proof. reflexivity. Qed.

(** ** Trimming, and the cluster address *)

Lemma blank_isASCII (s : string) : blank s = true → strings.isASCII s = true.
Proof.
  induction s as [|c s IH]; [done|]. cbn [blank strings.isASCII].
  intros [Hc Hs]%andb_true_iff. rewrite IH by done.
  by destruct c as [[] [] [] [] [] [] [] []].
Qed.

Lemma trimLeftASCII_spec (s : string) :
  ∃ l, s = l +:+ strings.trimLeftASCII s ∧ blank l = true
       ∧ starts_clean (strings.trimLeftASCII s) = true.
Proof.
  induction s as [|c s (l & Hs & Hl & Hclean)]; [by exists ""|].
  cbn [strings.trimLeftASCII]. destruct (Ascii.is_space c) eqn:Hc.
  - exists (String c l). rewrite app_cons, <-Hs. cbn [blank]. by rewrite Hc, Hl.
  - exists "". cbn [starts_clean]. by rewrite Hc.
Qed.

Lemma trimRightASCII_spec (s : string) :
  ∃ r, s = strings.trimRightASCII s +:+ r ∧ blank r = true
       ∧ ends_clean (strings.trimRightASCII s) = true
       ∧ (starts_clean s = true → starts_clean (strings.trimRightASCII s) = true).
Proof.
  induction s as [|c s (r & Hs & Hr & Hclean & _)]; [by exists ""|].
  cbn [strings.trimRightASCII]. destruct (strings.trimRightASCII s) as [|c' t] eqn:Ht.
  - rewrite app_empty_l in Hs. subst r. destruct (Ascii.is_space c) eqn:Hc.
    + exists (String c s). cbn [blank]. by rewrite Hc, Hr.
    + exists s. cbn [ends_clean starts_clean]. by rewrite Hc.
  - exists r. rewrite app_cons, <-Hs. split_and!; [done|done| |done].
    cbn [ends_clean] in *. done.
Qed.

Lemma app_isASCII (s t : string) :
  strings.isASCII (s +:+ t) = strings.isASCII s && strings.isASCII t.
Proof.
  induction s as [|c s IH]; [done|]. rewrite app_cons. cbn [strings.isASCII].
  by rewrite IH, andb_assoc.
Qed.

Section trimming.
Context `{GoRuntime}.

(** What [strings.TrimSpace] does to ASCII text: it takes white space off
    both ends, and nothing else. *)
Lemma TrimSpace_ascii (s : string) :
  strings.isASCII s = true →
  ∃ l r, s = l +:+ TrimSpace s +:+ r ∧ blank l = true ∧ blank r = true
         ∧ starts_clean (TrimSpace s) = true ∧ ends_clean (TrimSpace s) = true
         ∧ strings.isASCII (TrimSpace s) = true.
Proof.
  intros Hascii. unfold TrimSpace. rewrite Hascii.
  destruct (trimLeftASCII_spec s) as (l & Hs & Hl & Hstart).
  destruct (trimRightASCII_spec (strings.trimLeftASCII s)) as (r & Ht & Hr & Hend & Hkeep).
  exists l, r. split_and!.
  - by rewrite <-Ht.
  - done.
  - done.
  - by apply Hkeep.
  - done.
  - rewrite Hs, Ht, !app_isASCII, !andb_true_iff in Hascii. tauto.
Qed.

Lemma TrimSpace_blank (s : string) : blank s = true → TrimSpace s = "".
Proof.
  intros Hb. unfold TrimSpace. rewrite (blank_isASCII s Hb).
  assert (strings.trimLeftASCII s = "") as ->; [|done].
  induction s as [|c s IH]; [done|]. cbn [blank strings.trimLeftASCII] in *.
  apply andb_true_iff in Hb as [-> Hb]. by apply IH.
Qed.

Lemma TrimSpace_clean (s : string) :
  strings.isASCII s = true → starts_clean s = true → ends_clean s = true →
  TrimSpace s = s.
Proof.
  intros Hascii Hstart Hend. unfold TrimSpace. rewrite Hascii.
  assert (strings.trimLeftASCII s = s) as ->.
  { destruct s as [|c s]; [done|]. cbn [strings.trimLeftASCII starts_clean] in *.
    by destruct (Ascii.is_space c). }
  clear Hstart Hascii. induction s as [|c s IH]; [done|].
  cbn [strings.trimRightASCII]. destruct s as [|c' s].
  - cbn [ends_clean strings.trimRightASCII] in *. by destruct (Ascii.is_space c).
  - rewrite IH by done. done.
Qed.

End trimming.

Section cluster_address.
Context `{GoRuntime} (w : World).

(** X1. The address of the cluster.  A cluster name that is more than white
    space wins over the environment and gives
    [https://<name>.eastus.kusto.windows.net], with the white space around
    the name taken off; otherwise the trimmed value of [KUSTO_CLUSTER] is
    the address, as it is; when that is empty too the process exits with
    status 1 after one line on standard error.  The address is never empty,
    and nothing is opened, called or printed to standard output. *)
Theorem resolveClusterURL_spec (arg : string) :
  let name := TrimSpace arg in
  let env := TrimSpace (os_Getenv w "KUSTO_CLUSTER") in
  (name ≠ "" →
     resolveClusterURL w arg
     = ([], Returned ("https://" +:+ name +:+ ".eastus.kusto.windows.net")))
  ∧ (name = "" → env ≠ "" → resolveClusterURL w arg = ([], Returned env))
  ∧ (name = "" → env = "" →
       resolveClusterURL w arg
       = ([Stderr "cluster not provided. Usage: 'probe <cluster-name>' or set KUSTO_CLUSTER to full URI"],
          Exited 1))
  ∧ (∀ url, result_of (resolveClusterURL w arg) = Returned url → url ≠ "")
  ∧ (blank arg = true → name = "")
  ∧ (strings.isASCII arg = true →
       ∃ l r, arg = l +:+ name +:+ r ∧ blank l = true ∧ blank r = true
              ∧ starts_clean name = true ∧ ends_clean name = true).
Proof.
  intros name env. unfold resolveClusterURL. fold name env. split_and!.
  - intros Hn. by rewrite decide_True.
  - intros Hn He. rewrite decide_False by (by intros []). by rewrite decide_True.
  - intros Hn He. rewrite decide_False by (by intros []).
    rewrite decide_False by (by intros []). done.
  - intros url. repeat case_decide; cbn; intros [= <-]; done.
  - apply TrimSpace_blank.
  - intros Hascii. destruct (TrimSpace_ascii arg Hascii) as (l & r & ? & ? & ? & ? & ? & _).
    by exists l, r.
Qed.

End cluster_address.

Lemma resolveClusterURL_spec_witness :
  @resolveClusterURL sample.runtime (probe_world None None (inr [])) "  my cluster "
  = ([], Returned "https://my cluster.eastus.kusto.windows.net").
Proof.
  apply (@resolveClusterURL_spec sample.runtime (probe_world None None (inr []))
           "  my cluster ").
  discriminate.
Defined.

Example resolveClusterURL_blank_name :
  @resolveClusterURL sample.runtime
     (sample.world ["kusto"; "probe"; "   "] [("KUSTO_CLUSTER", " https://c.example ")]
        (inr (sample.client None None (inr [])))) "   "
  = ([], Returned "https://c.example").
Proof. reflexivity. Qed.

(** ** Comma-separated lists *)

Lemma string_app_assoc (s t u : string) : (s +:+ t) +:+ u = s +:+ t +:+ u.
Proof. induction s as [|c s IH]; [done|]. by rewrite !app_cons, IH. Qed.

Lemma occurs_in_app (sub l s r : string) : occurs_in sub s → occurs_in sub (l +:+ s +:+ r).
Proof.
  intros (pre & post & ->). exists (l +:+ pre), (post +:+ r).
  by rewrite !string_app_assoc.
Qed.

Lemma Contains_comma_cons (c : ascii) (s : string) :
  strings.Contains (String c s) "," = if decide (","%char = c) then true else strings.Contains s ",".
Proof.
  cbn [strings.Contains strings.HasPrefix]. destruct (decide (","%char = c)); [|done].
  by destruct s.
Qed.

(** Text without a comma is one piece. *)
Lemma Split_no_comma (x : string) :
  strings.Contains x "," = false → strings.Split x "," = [x].
Proof.
  unfold strings.Split. induction x as [|c x IH]; [done|].
  rewrite Contains_comma_cons. destruct (decide (","%char = c)) as [|Hc]; [done|].
  intros Hx. cbn [strings.splitFrom strings.HasPrefix]. rewrite decide_False by done.
  by rewrite IH.
Qed.

(** A comma ends the first piece. *)
Lemma Split_comma (x rest : string) :
  strings.Contains x "," = false →
  strings.Split (x +:+ String "," rest) "," = x :: strings.Split rest ",".
Proof.
  unfold strings.Split. induction x as [|c x IH].
  - intros _. rewrite app_empty_l. cbn [strings.splitFrom strings.HasPrefix].
    rewrite decide_True by done. by destruct rest.
  - rewrite Contains_comma_cons. destruct (decide (","%char = c)) as [|Hc]; [done|].
    intros Hx. rewrite app_cons. cbn [strings.splitFrom strings.HasPrefix].
    rewrite decide_False by done. by rewrite IH.
Qed.

(** The pieces between commas: there is at least one, and none holds a
    comma. *)
Lemma Split_pieces (s : string) :
  strings.Split s "," ≠ []
  ∧ Forall (λ p, strings.Contains p "," = false
                 ∧ (strings.isASCII s = true → strings.isASCII p = true))
      (strings.Split s ",").
Proof.
  unfold strings.Split. induction s as [|c s [Hne IH]]; [by repeat constructor|].
  cbn [strings.splitFrom strings.HasPrefix]. destruct (decide (","%char = c)) as [<-|Hc].
  - assert (strings.HasPrefix s "" = true) as -> by by destruct s.
    cbn [String.length Nat.sub]. split; [done|]. constructor; [done|].
    eapply Forall_impl; [done|]. intros p [Hp Hascii]. split; [done|].
    cbn [strings.isASCII]. intros [_ ?]%andb_true_iff. auto.
  - destruct (strings.splitFrom 0 s ",") as [|piece rest]; [done|]. split; [done|].
    apply Forall_cons in IH as [[Hp Hascii] IH]. constructor.
    + rewrite Contains_comma_cons, decide_False by done. split; [done|].
      cbn [strings.isASCII]. intros [-> ?]%andb_true_iff. auto.
    + eapply Forall_impl; [done|]. intros p [Hp' Hascii']. split; [done|].
      cbn [strings.isASCII]. intros [_ ?]%andb_true_iff. auto.
Qed.

Lemma Join_cons (x y : string) (rest : list string) (sep : string) :
  strings.Join (x :: y :: rest) sep = x +:+ sep +:+ strings.Join (y :: rest) sep.
Proof. reflexivity. Qed.

Section csv.
Context `{GoRuntime}.

Lemma splitCSV_parts_items (parts : list string) :
  Forall (λ x, x ≠ "") (splitCSV_parts parts)
  ∧ (Forall (λ p, strings.Contains p "," = false ∧ strings.isASCII p = true) parts →
     Forall (λ x, strings.Contains x "," = false ∧ starts_clean x = true
                  ∧ ends_clean x = true) (splitCSV_parts parts)).
Proof.
  induction parts as [|p parts [IH1 IH2]]; [by split|]. cbn [splitCSV_parts].
  destruct (decide (TrimSpace p ≠ "")) as [Hp|Hp].
  - split; [by constructor|]. intros [[Hcomma Hascii] Hparts]%Forall_cons.
    constructor; [|by apply IH2].
    destruct (TrimSpace_ascii p Hascii) as (l & r & Heq & _ & _ & Hs & He & _).
    split_and!; [|done..].
    destruct (strings.Contains (TrimSpace p) ",") eqn:Hc; [|done].
    apply Contains_spec in Hc. apply (occurs_in_app _ l _ r) in Hc. rewrite <-Heq in Hc.
    apply Contains_spec in Hc. congruence.
  - split; [done|]. intros [_ Hparts]%Forall_cons. by apply IH2.
Qed.

(** X2. [splitCSV] gives the items of a comma-separated list: none of them
    is empty; for ASCII text none holds a comma or has white space at either
    end; and a list of such items, joined with commas, is given back as it
    was. *)
Theorem splitCSV_spec (s : string) (items : list string) :
  Forall (λ x, x ≠ "") (splitCSV s)
  ∧ (strings.isASCII s = true →
     Forall (λ x, strings.Contains x "," = false ∧ starts_clean x = true
                  ∧ ends_clean x = true) (splitCSV s))
  ∧ (Forall csv_item items → splitCSV (strings.Join items ",") = items).
Proof.
  unfold splitCSV. split_and!.
  - apply splitCSV_parts_items.
  - intros Hascii. apply splitCSV_parts_items.
    eapply Forall_impl; [apply Split_pieces|]. intros p [? Hp]. auto.
  - induction 1 as [|x rest (Hx & Hascii & Hcomma & Hs & He) Hrest IH]; [done|].
    destruct rest as [|y rest].
    + cbn [strings.Join]. rewrite Split_no_comma by done. cbn [splitCSV_parts].
      rewrite (TrimSpace_clean x) by done. by rewrite decide_True.
    + rewrite Join_cons.
      change (x +:+ "," +:+ strings.Join (y :: rest) ",")
        with (x +:+ String "," (strings.Join (y :: rest) ",")).
      rewrite Split_comma by done. cbn [splitCSV_parts].
      rewrite (TrimSpace_clean x) by done. rewrite decide_True by done. by rewrite IH.
Qed.

End csv.

Lemma splitCSV_spec_witness :
  @splitCSV sample.runtime "StormEvents,ProbeTest,a b" = ["StormEvents"; "ProbeTest"; "a b"].
Proof.
  apply (@splitCSV_spec sample.runtime "" ["StormEvents"; "ProbeTest"; "a b"]).
  repeat constructor; done.
Defined.

Example splitCSV_padded :
  @splitCSV sample.runtime " a , ,b,, c d ," = ["a"; "b"; "c d"].
Proof. reflexivity. Qed.

Example splitCSV_empty : @splitCSV sample.runtime "" = [].
Proof. reflexivity. Qed.

(** ** The record as a list of assignments *)

Lemma foldl_insert_list_to_map (l : list (string * any)) (m : gmap string any) :
  foldl (λ m kv, <[kv.1 := kv.2]> m) m l
  = foldr (λ kv m, <[kv.1 := kv.2]> m) m (reverse l).
Proof.
  revert m. induction l as [|kv l IH]; intros m; [done|].
  cbn [foldl]. by rewrite IH, reverse_cons, foldr_app.
Qed.

Lemma size_list_to_map_le (l : list (string * any)) :
  (size (list_to_map l : gmap string any) ≤ length l)%nat.
Proof.
  induction l as [|[k v] l IH]; [done|]. rewrite list_to_map_cons, map_size_insert.
  cbn [length]. destruct (_ !! k); cbn; lia.
Qed.

Section assignments.
Context `{GoRuntime}.

Lemma project_columns_foldl (i : nat) (cols : list Column) (vals : list (option Kusto))
    (obj : gmap string any) :
  project_columns i cols vals obj
  = foldl (λ m kv, <[kv.1 := kv.2]> m) obj
      (zip_with (λ c v, (column_Name c, column_value c v)) cols (drop i vals)).
Proof.
  revert i obj. induction cols as [|c cols IH]; intros i obj; [done|].
  cbn [project_columns]. destruct (vals !! i) as [v|] eqn:Hv.
  - rewrite (drop_S _ _ _ Hv). cbn [zip_with foldl]. by rewrite IH.
  - rewrite IH. apply lookup_ge_None in Hv.
    rewrite !drop_ge by lia. by destruct cols.
Qed.

(** X3. The record of a row is what its assignments leave behind, a later
    assignment to a key replacing an earlier one: the three synthetic keys
    first, then one assignment per column that has a value in the row, in the
    order of the columns.  Its keys are the keys assigned; a column beyond
    the values of the row adds none; and it never has more entries than
    there are columns, plus three. *)
Theorem project_row_assignments (table : Table) (row : Row) :
  project_row table row = list_to_map (reverse (assignments table row))
  ∧ (∀ k, is_Some (project_row table row !! k) ↔ k ∈ (assignments table row).*1)
  ∧ length (assignments table row)
    = (3 + min (length (table_Columns table)) (length (row_Values row)))%nat
  ∧ (size (project_row table row) ≤ length (table_Columns table) + 3)%nat.
Proof.
  assert (project_row table row = list_to_map (reverse (assignments table row))) as Heq.
  { unfold project_row, assignments. rewrite project_columns_foldl. cbn [drop].
    unfold list_to_map. rewrite <-foldl_insert_list_to_map. by rewrite foldl_app. }
  assert (length (assignments table row)
          = (3 + min (length (table_Columns table)) (length (row_Values row)))%nat) as Hlen.
  { unfold assignments. rewrite length_app, length_zip_with. done. }
  split_and!; [done| |done|].
  - intros k. rewrite Heq, <-elem_of_dom, dom_list_to_map_L, elem_of_list_to_set.
    by rewrite fmap_reverse, elem_of_reverse.
  - rewrite Heq. etrans; [apply size_list_to_map_le|]. rewrite length_reverse, Hlen. lia.
Qed.

End assignments.

Example project_row_last_wins :
  @project_row sample.runtime
     {| table_Name := "T"; table_Kind := "PrimaryResult";
        table_Columns := [ {| column_Name := "a"; column_Type := types.Long |};
                           {| column_Name := "_kind"; column_Type := types.String |};
                           {| column_Name := "late"; column_Type := types.Long |} ];
        table_Rows := [] |}
     {| row_Index := 4;
        row_Values := [ None; Some {| GetValue := GStringPtr (Some "mine") |} ] |}
  = {[ "_table" := GoString "T"; "_kind" := Native (GStringPtr (Some "mine"));
       "_rowIndex" := GoInt 4; "a" := Nil ]}.
Proof. vm_compute. reflexivity. Qed.

(** ** The default mode, from start to end *)


Section default_run.
Context `{GoRuntime} (w : World).





End default_run.



Section default_setup.
Context `{GoRuntime} (w : World).


End default_setup.


Example queryMode_query_verbatim :
  calls (trace (@queryMode sample.runtime
                  (sample.world ["kusto"]
                     [("KUSTO_CLUSTER", "https://c1.eastus.kusto.windows.net");
                      ("KUSTO_DATABASE", "sampledb"); ("KUSTO_QUERY", " print 'x' ")]
                     (inr (sample.client None None (inr []))))))
  = [CallIterativeQuery 120000000000 "sampledb" " print 'x' "].
Proof. reflexivity. Qed.

(** ** The discipline of the resources *)










Section discipline.
Context `{GoRuntime} (w : World).












End discipline.


(** ** What the probe reports *)

Section report.
Context `{GoRuntime} (w : World).

Lemma suggestionForAuth_nonempty (e : error) : suggestionForAuth e ≠ "".
Proof. done. Qed.



Lemma suggestionForQuery_nonempty (table : string) : suggestionForQuery table ≠ "".
Proof. done. Qed.


Lemma stdout_lines (lines : list string) : stdout (Stdout <$> lines) = lines.
Proof. induction lines as [|l lines IH]; [done|]. cbn. f_equal. exact IH. Qed.

Lemma runProbe_without_client (arg cluster : string) (e : error) :
  result_of (resolveClusterURL w arg) = Returned cluster →
  azkustodata_New w cluster = inl e →
  runProbe w arg
  = ([Stdout ("FAIL auth/client: failed to create Kusto client: " +:+ Error e);
      Stdout ("SUGGEST auth/client: " +:+ suggestionForAuth e)], Exited 1).
Proof.
  intros Hres%resolveClusterURL_returned Hnew. unfold runProbe.
  by rewrite Hres, bind_pure, Hnew.
Qed.


Lemma dataSampleStep_passed (T : Z) (client : Client) (db table marker : string) :
  result_of (queryHasAnyRow T client db (sampleQuery table marker)) = Returned (true, None) →
  stdout (trace (dataSampleStep w T client db table marker))
  = [ okLine w "data-sample" ("sample table ok: " +:+ table +:+ " contains expected data");
      "OK probe: endpoint, db, and data access validated" ].
Proof.
  intros Hfound. by destruct (dataSampleStep_unfold w _ _ _ _ _ _ _ Hfound) as [-> _].
Qed.


(** X8. The probe returns exactly when the cluster address resolves, the
    client is created, the management command and the basic query succeed,
    and the sample-data query ends without error with a row; it has then
    printed four OK lines, one per step and a closing one, and nothing
    else. *)
Theorem probe_passes (arg : string) :
  let run := runProbe w arg in
  (result_of run = Returned tt
   ↔ ∃ client, probe_client w arg client
               ∧ Mgmt client "" ".show version" = None
               ∧ Query client (probe_database w) "print 1" = None
               ∧ result_of (queryHasAnyRow (probe_timeout w) client (probe_database w)
                              (sampleQuery (probe_table w) (probe_marker w)))
                 = Returned (true, None))
  ∧ (result_of run = Returned tt →
     stdout (trace run)
     = [ okLine w "mgmt" "cluster reachable";
         okLine w "database" ("db ok: " +:+ probe_database w);
         okLine w "data-sample"
           ("sample table ok: " +:+ probe_table w +:+ " contains expected data");
         "OK probe: endpoint, db, and data access validated" ]).
Proof.
  intros run. subst run.
  assert (result_of (runProbe w arg) = Returned tt →
          ∃ client, probe_client w arg client
               ∧ Mgmt client "" ".show version" = None
               ∧ Query client (probe_database w) "print 1" = None
               ∧ result_of (queryHasAnyRow (probe_timeout w) client (probe_database w)
                              (sampleQuery (probe_table w) (probe_marker w)))
                 = Returned (true, None)) as Hforward.
  { destruct (resolveClusterURL w arg) as [t0 [cluster|code]] eqn:Hres.
    2:{ unfold runProbe. by rewrite Hres, bind_exited. }
    assert (result_of (resolveClusterURL w arg) = Returned cluster) as Hr by by rewrite Hres.
    destruct (azkustodata_New w cluster) as [e|client] eqn:Hnew.
    { by rewrite (runProbe_without_client _ _ _ Hr Hnew). }
    assert (probe_client w arg client) as Hclient by by exists cluster.
    rewrite (runProbe_with_client _ _ _ Hclient).
    destruct (client_scope_calls (probeSteps w client)) as [_ ->].
    pose proof (probeSteps_run w client) as Hsteps. cbn zeta in Hsteps.
    destruct (Mgmt client "" ".show version") eqn:Hm.
    { destruct Hsteps as [_ ->]. done. }
    destruct (Query client (probe_database w) "print 1") eqn:Hq.
    { destruct Hsteps as [_ ->]. done. }
    destruct Hsteps as (_ & _ & Hfail). intros Hret. exists client.
    split_and!; try done.
    destruct (queryHasAnyRow_returns (probe_timeout w) client (probe_database w)
                (sampleQuery (probe_table w) (probe_marker w))) as (t & r & Hrun & _).
    rewrite Hrun in Hfail |- *.
    destruct r as [[|] [e|]]; [| done | |]; exfalso;
      (rewrite Hfail in Hret; [discriminate Hret | by intros [=]]). }
  assert (∀ client, probe_client w arg client →
            Mgmt client "" ".show version" = None →
            Query client (probe_database w) "print 1" = None →
            result_of (queryHasAnyRow (probe_timeout w) client (probe_database w)
                         (sampleQuery (probe_table w) (probe_marker w)))
            = Returned (true, None) →
            result_of (runProbe w arg) = Returned tt
            ∧ stdout (trace (runProbe w arg))
              = [ okLine w "mgmt" "cluster reachable";
                  okLine w "database" ("db ok: " +:+ probe_database w);
                  okLine w "data-sample"
                    ("sample table ok: " +:+ probe_table w +:+ " contains expected data");
                  "OK probe: endpoint, db, and data access validated" ]) as Hback.
  { intros client Hclient Hm Hq Hfound.
    rewrite (runProbe_with_client _ _ _ Hclient), client_scope_stdout.
    destruct (client_scope_calls (probeSteps w client)) as [_ ->].
    destruct (probeSteps_reach_data _ client Hm Hq) as [-> ->].
    rewrite (dataSampleStep_passed _ _ _ _ _ Hfound).
    split; [|done].
    by destruct (dataSampleStep_run w (probe_timeout w) client (probe_database w) (probe_table w)
                   (probe_marker w)) as (_ & -> & _). }
  split_and!.
  - split; [exact Hforward|]. intros (client & Hclient & Hm & Hq & Hfound).
    by destruct (Hback client Hclient Hm Hq Hfound).
  - intros (client & Hclient & Hm & Hq & Hfound)%Hforward.
    by destruct (Hback client Hclient Hm Hq Hfound).
Qed.

End report.


Lemma probe_passes_witness :
  stdout (trace (@runProbe sample.runtime
                   (probe_world None None
                      (inr [Delivered (primary [Delivered (message_row 0 "kusto-sample-ok")])]))
                   "c1"))
  = [ "OK mgmt (120ms): cluster reachable";
      "OK database (120ms): db ok: sampledb";
      "OK data-sample (120ms): sample table ok: ProbeTest contains expected data";
      "OK probe: endpoint, db, and data access validated" ].
Proof.
  destruct (@probe_passes sample.runtime
              (probe_world None None
                 (inr [Delivered (primary [Delivered (message_row 0 "kusto-sample-ok")])]))
              "c1") as (_ & Hlines).
  etrans; [apply Hlines|]; reflexivity.
Defined.

Example probe_without_client :
  @main sample.runtime (sample.world ["kusto"; "probe"; "c1"] [] (inl boom))
  = ([Stdout "FAIL auth/client: failed to create Kusto client: boom";
      Stdout "SUGGEST auth/client: Ensure Azure auth is available: run 'az login' or configure DefaultAzureCredential (AZURE_TENANT_ID, AZURE_CLIENT_ID/SECRET)."],
     Exited 1).
Proof. reflexivity. Qed.

(** ** The initializer *)

Section initializer.
Context `{GoRuntime} (w : World).




End initializer.


Example init_sample_run :
  @main sample.runtime
    (sample.world ["kusto"; "init-sample"; "c1"] [("KUSTO_PROBE_EXPECT_MESSAGE", "it's ok")]
       (inr (sample.client None None (inr []))))
  = ([Open TheClient;
      Remote (CallMgmt 30000000000 "sampledb"
                ".create-merge table ProbeTest (Message:string, When:datetime)");
      Remote (CallMgmt 30000000000 "sampledb"
                ".set-or-append ProbeTest <| print Message='it''s ok', When=now()");
      Stdout "Initialized sample table ProbeTest with message 'it's ok'";
      Close TheClient],
     Returned tt).
Proof. reflexivity. Qed.

(** ** The line of a record *)

Lemma keys_ascending_sorted (entries : list (string * any)) :
  Sorted key_le entries → NoDup entries.*1 → keys_ascending entries.
Proof.
  intros Hsorted%Sorted_StronglySorted; [|apply _].
  induction Hsorted as [|x l Hl IH Hx]; intros Hnodup; [constructor|].
  apply NoDup_cons in Hnodup as [Hfresh Hnodup]. constructor; [by apply IH|].
  apply Forall_forall. intros y Hy. split.
  - by apply (proj1 (Forall_forall _ _) Hx).
  - intros Heq. apply Hfresh. rewrite Heq. apply list_elem_of_fmap. by exists y.
Qed.

Section record_line.
Context `{GoRuntime} (w : World).

Lemma encode_fields_spec (entries : list (string * any)) :
  match encode_fields entries with
  | inr fields =>
      ∃ encs, Forall2 (λ kv enc, json_encode kv.2 = inr enc) entries encs
              ∧ fields = zip_with member entries encs
  | inl e =>
      ∃ (i : nat) kv, entries !! i = Some kv ∧ json_encode kv.2 = inl e
                      ∧ ∀ (j : nat) kv', (j < i)%nat → entries !! j = Some kv' →
                                         ∃ enc, json_encode kv'.2 = inr enc
  end.
Proof.
  induction entries as [|[k v] entries IH]; cbn [encode_fields].
  { exists []. by split; [constructor|]. }
  destruct (json_encode v) as [e|enc] eqn:Hv.
  { exists 0%nat, (k, v). split_and!; [done..|]. intros j kv' Hj. lia. }
  destruct (encode_fields entries) as [e|fields].
  - destruct IH as (i & kv & Hi & He & Hbefore). exists (S i), kv. split_and!; [done..|].
    intros [|j] kv' Hj Hlook.
    + injection Hlook as <-. by exists enc.
    + apply (Hbefore j); [lia|done].
  - destruct IH as (encs & Hall & ->). exists (enc :: encs). split; [|done].
    by constructor.
Qed.

(** X10. Whatever order the iteration of the map takes, [json.Marshal]
    treats the entries of a record in ascending order of their keys, each
    key once.  When it succeeds the line is an object with one member per
    entry in that order, each the encoded key, a colon and the encoded
    value, separated by commas; it fails exactly when some value cannot be
    encoded, with the error of the first such entry. *)
Theorem json_Marshal_spec (obj : gmap string any) :
  iterates_maps w →
  ∃ entries,
    entries ≡ₚ map_to_list obj
    ∧ keys_ascending entries
    ∧ match json_Marshal w obj with
      | inr line =>
          ∃ encs, Forall2 (λ kv enc, json_encode kv.2 = inr enc) entries encs
                  ∧ line = "{" +:+ strings.Join (zip_with member entries encs) "," +:+ "}"
      | inl e =>
          ∃ (i : nat) kv, entries !! i = Some kv ∧ json_encode kv.2 = inl e
                          ∧ ∀ (j : nat) kv', (j < i)%nat → entries !! j = Some kv' →
                                             ∃ enc, json_encode kv'.2 = inr enc
      end.
Proof.
  intros Hiter. exists (merge_sort key_le (map_range w obj)).
  assert (merge_sort key_le (map_range w obj) ≡ₚ map_to_list obj) as Hperm.
  { by rewrite merge_sort_Permutation, (Hiter obj). }
  split_and!; [done| |].
  - apply keys_ascending_sorted; [apply Sorted_merge_sort, _|].
    rewrite Hperm. apply NoDup_fst_map_to_list.
  - unfold json_Marshal, marshal_entries.
    pose proof (encode_fields_spec (merge_sort key_le (map_range w obj))) as Hspec.
    destruct (encode_fields (merge_sort key_le (map_range w obj))) as [e|fields]; [done|].
    destruct Hspec as (encs & Hall & ->). by exists encs.
Qed.

End record_line.

(** A record of the sample table, its entries met in reverse order. *)
Lemma json_Marshal_spec_witness :
  ∃ entries,
    entries.*1 = ["Id"; "Payload"; "_kind"; "_rowIndex"; "_table"]
    ∧ ∃ encs, @json_Marshal sample.runtime (reverse_iteration (query_world []))
                (@project_row sample.runtime (dynamic_table [])
                   (dynamic_row 0 7 (GBytes (sample.bytes "{}"))))
              = inr ("{" +:+ strings.Join (zip_with (@member sample.runtime) entries encs) ","
                     +:+ "}").
Proof.
  destruct (@json_Marshal_spec sample.runtime (reverse_iteration (query_world []))
              (@project_row sample.runtime (dynamic_table [])
                 (dynamic_row 0 7 (GBytes (sample.bytes "{}")))))
    as (entries & Hperm & Hsorted & Hline).
  { intros m. apply reverse_Permutation. }
  exists entries. split.
  - apply (Sorted_unique_strong (λ x y : string, String.le x y)).
    + intros x1 x2 _ _. apply (anti_symm String.le).
    + clear Hperm Hline. induction Hsorted as [|x l Hl IH Hx]; [constructor|].
      cbn [fmap list_fmap]. apply Sorted_cons; [exact IH|].
      destruct Hx as [|y l' [Hy _] _]; constructor. exact Hy.
    + vm_compute. repeat constructor.
    + rewrite Hperm, <-(merge_sort_Permutation (λ x y : string, String.le x y)).
      vm_compute. reflexivity.
  - destruct (@json_Marshal sample.runtime _ _) as [e|line] eqn:Hrun; [|].
    + vm_compute in Hrun. discriminate Hrun.
    + destruct Hline as (encs & _ & ->). by exists encs.
Defined.
